(** * c20c_data_grabber: extraction of C20C+ variables from tape

    A shallow embedding of [extract_c20c_data] (src/c20c_data_grabber.py)
    and the properties of its control flow: template rendering, the
    verification of the paths, the clobber check, the derivation of the destination
    directory and the bookkeeping of the working directory.

    Python strings are modelled as [string] (sequences of characters with a
    code below 256), Python integers as [Z], the dictionary [htar_paths] as a
    [gmap string string].  The function runs in a state and exception monad
    over the process state (working directory, file system, the history of
    the external commands that were run, the lines printed). *)

From Stdlib Require Import ZArith Ascii String List Lia.
From stdpp Require Import base option list strings gmap pretty.

Local Open Scope string_scope.
Local Open Scope Z_scope.

(** ** Python string primitives *)

Module PyStr.

(** [len(s)] as a Python integer. *)
Definition len (s : string) : Z := Z.of_nat (String.length s).

(** [s.startswith(sub)]. *)
Fixpoint startswith (s sub : string) {struct sub} : bool :=
  match sub with
  | EmptyString => true
  | String c sub' =>
      match s with
      | EmptyString => false
      | String d s' => if Ascii.eqb c d then startswith s' sub' else false
      end
  end.

(** The scan of [s.find(sub)]: [i] is the index of the first character of
    [s] in the original string.  The lowest index at which [sub] starts, or
    [-1]. *)
Fixpoint find_from (sub s : string) (i : Z) : Z :=
  if startswith s sub then i
  else match s with
       | EmptyString => -1
       | String _ s' => find_from sub s' (i + 1)
       end.

(** [s.find(sub)]. *)
Definition find (s sub : string) : Z := find_from sub s 0.

(** The first [n] characters are removed. *)
Fixpoint drop (n : nat) (s : string) : string :=
  match n, s with
  | O, _ => s
  | S _, EmptyString => EmptyString
  | S n', String _ s' => drop n' s'
  end.

(** The first [n] characters. *)
Fixpoint take (n : nat) (s : string) : string :=
  match n, s with
  | O, _ => EmptyString
  | S _, EmptyString => EmptyString
  | S n', String c s' => String c (take n' s')
  end.

(** How Python clips the bound of a slice: a negative bound counts from the
    end, and the result is brought into [0 .. len]. *)
Definition clip (n i : Z) : Z :=
  let j := if i <? 0 then i + n else i in
  if j <? 0 then 0 else if n <? j then n else j.

(** [s[i:]]. *)
Definition slice_from (s : string) (i : Z) : string :=
  drop (Z.to_nat (clip (len s) i)) s.

(** [s[:i]]. *)
Definition slice_to (s : string) (i : Z) : string :=
  take (Z.to_nat (clip (len s) i)) s.

(** The scan of [s.rfind(c)] for one character: [i] is the index of the
    first character of [s], [last] the best index found so far. *)
Fixpoint rfind_char_from (c : ascii) (s : string) (i last : Z) : Z :=
  match s with
  | EmptyString => last
  | String d s' =>
      rfind_char_from c s' (i + 1) (if Ascii.eqb d c then i else last)
  end.

(** [s.rfind(c)] for a one-character [c]: the highest index, or [-1]. *)
Definition rfind_char (s : string) (c : ascii) : Z :=
  rfind_char_from c s 0 (-1).

(** All characters of [s] satisfy [p]. *)
Fixpoint all_chars (p : ascii -> bool) (s : string) : bool :=
  match s with
  | EmptyString => true
  | String c s' => p c && all_chars p s'
  end.

(** The trailing characters that satisfy [p] are removed. *)
Fixpoint rstrip_where (p : ascii -> bool) (s : string) : string :=
  match s with
  | EmptyString => EmptyString
  | String c s' =>
      match rstrip_where p s' with
      | EmptyString => if p c then EmptyString else String c EmptyString
      | r => String c r
      end
  end.

(** The characters with a code below 256 for which [str.isspace] holds. *)
Definition isspace (c : ascii) : bool :=
  let n := Z.of_nat (nat_of_ascii c) in
  ((9 <=? n) && (n <=? 13)) || ((28 <=? n) && (n <=? 32))
  || (n =? 133) || (n =? 160).

(** [s.rstrip()]. *)
Definition rstrip (s : string) : string := rstrip_where isspace s.

(** [s.rstrip(c)] for a one-character [c]. *)
Definition rstrip_char (s : string) (c : ascii) : string :=
  rstrip_where (Ascii.eqb c) s.

(** [c in s] for a one-character [c]. *)
Fixpoint contains_char (s : string) (c : ascii) : bool :=
  match s with
  | EmptyString => false
  | String d s' => Ascii.eqb d c || contains_char s' c
  end.

(** [c * n]: [n] copies of the character. *)
Fixpoint repeat_char (c : ascii) (n : nat) : string :=
  match n with
  | O => EmptyString
  | S n' => String c (repeat_char c n')
  end.

(** [s.split(c)] for a one-character separator [c]: the pieces between
    the occurrences of [c]; never the empty list. *)
Fixpoint split (s : string) (c : ascii) : list string :=
  match s with
  | EmptyString => [EmptyString]
  | String d s' =>
      if Ascii.eqb d c then EmptyString :: split s' c
      else match split s' c with
           | piece :: pieces => String d piece :: pieces
           | [] => [String d EmptyString]
           end
  end.

(** [c.join(l)] for a one-character [c]. *)
Fixpoint join_char (c : ascii) (l : list string) : string :=
  match l with
  | [] => EmptyString
  | [x] => x
  | x :: l' => x ++ String c (join_char c l')
  end.

End PyStr.

(** ** [os.path] (posixpath) *)

Module PosixPath.

Definition sep : ascii := "/"%char.

(** [os.path.dirname]:
<<
    i = p.rfind(sep) + 1
    head = p[:i]
    if head and head != sep*len(head):
        head = head.rstrip(sep)
    return head
>> *)
Definition dirname (p : string) : string :=
  let i := PyStr.rfind_char p sep + 1 in
  let head := PyStr.slice_to p i in
  if negb (String.eqb head EmptyString)
     && negb (String.eqb head (PyStr.repeat_char sep (String.length head)))
  then PyStr.rstrip_char head sep
  else head.

(** [os.path.isabs]. *)
Definition isabs (p : string) : bool := PyStr.startswith p "/".

(** [os.path.join(a, b)] for two components. *)
Definition join (a b : string) : string :=
  if isabs b then b
  else if String.eqb a EmptyString || PyStr.startswith (PyStr.slice_from a (-1)) "/"
       then a ++ b
       else a ++ "/" ++ b.

End PosixPath.

(** ** Exceptions and results *)

(** The exceptions the program can end with.  Only the class is kept for the
    errors of [str.format]; [OSError] stands for its subclasses
    ([FileNotFoundError], [NotADirectoryError], [PermissionError], ...). *)
Inductive exn : Type :=
| KeyError (key : string)
| IndexError
| ValueError
| TypeError
| NotImplementedError
| RuntimeError (msg : string)
| CalledProcessError (returncode : Z) (cmd : list string)
| OSError (filename : string).

(** A Python computation returns a value or raises. *)
Inductive outcome (A : Type) : Type :=
| Ok (a : A)
| Raise (e : exn).
Arguments Ok {A} a.
Arguments Raise {A} e.

(** ** [str.format] with keyword arguments *)

(** The keyword arguments of the call at lines 91-98. *)
Record Fields : Type := mkFields {
  f_experiment : string;
  f_run : string;
  f_variable : string;
  f_institution : string;
  f_model : string;
  f_estimate : string;
  f_version : string;
}.

Module Format.

(** The lookup of a keyword argument by name. *)
Definition kwargs (f : Fields) (k : string) : option string :=
  if String.eqb k "experiment" then Some (f_experiment f)
  else if String.eqb k "run" then Some (f_run f)
  else if String.eqb k "variable" then Some (f_variable f)
  else if String.eqb k "institution" then Some (f_institution f)
  else if String.eqb k "model" then Some (f_model f)
  else if String.eqb k "estimate" then Some (f_estimate f)
  else if String.eqb k "version" then Some (f_version f)
  else None.

Definition is_digit (c : ascii) : bool :=
  let n := nat_of_ascii c in (48 <=? n)%nat && (n <=? 57)%nat.

Definition is_ascii (c : ascii) : bool := (nat_of_ascii c <? 128)%nat.

(** The largest index ([PY_SSIZE_T_MAX], on a 64-bit build). *)
Definition PY_SSIZE_T_MAX : Z := 9223372036854775807.

(** What [get_integer] answers: the index a name denotes, [-1] without an
    error for a name that is not a number, [-1] with the [ValueError]
    "Too many decimal digits in format string". *)
Inductive integer : Type :=
| IsInteger (n : Z)
| NotInteger
| TooManyDigits.

(** The loop of [get_integer]: the characters are read from the left; a
    character that is not a digit ends the loop with [-1], and the overflow
    of the accumulator is detected before it happens.  Python takes the
    decimal digits of every script for digits: [None] when the loop meets
    a character beyond ASCII, whose digit value is not modelled. *)
Fixpoint get_integer_from (accumulator : Z) (s : string) : option integer :=
  match s with
  | EmptyString => Some (IsInteger accumulator)
  | String c s' =>
      if negb (is_ascii c) then None
      else if negb (is_digit c) then Some NotInteger
      else
        let digitval := Z.of_nat (nat_of_ascii c - 48) in
        if (PY_SSIZE_T_MAX - digitval) / 10 <? accumulator
        then Some TooManyDigits
        else get_integer_from (accumulator * 10 + digitval) s'
  end.

(** [get_integer]: the empty string is not a number. *)
Definition get_integer (s : string) : option integer :=
  if String.eqb s EmptyString then Some NotInteger else get_integer_from 0 s.

(** The part of a field name up to the first ['.'] or ['['], and the rest. *)
Fixpoint split_first (s : string) : string * string :=
  match s with
  | EmptyString => (EmptyString, EmptyString)
  | String c s' =>
      if Ascii.eqb c "."%char || Ascii.eqb c "["%char
      then (EmptyString, s)
      else let '(a, b) := split_first s' in (String c a, b)
  end.

(** The text up to the first ["]"], and what follows it; [None] when there
    is no ["]"]. *)
Fixpoint split_bracket (s : string) : option (string * string) :=
  match s with
  | EmptyString => None
  | String c s' =>
      if Ascii.eqb c "]"%char then Some (EmptyString, s')
      else match split_bracket s' with
           | Some (a, b) => Some (String c a, b)
           | None => None
           end
  end.

(** The character of [s] at index [i] ([s[i]] for [0 <= i]); [None] when
    the index is out of range. *)
Definition char_at (s : string) (i : Z) : option ascii :=
  if (0 <=? i) && (i <? PyStr.len s) then String.get (Z.to_nat i) s else None.

(** The results of [str.format] that are modelled: replacement fields that
    name a keyword or a position, followed by any number of index lookups
    [[n]], with no conversion or the conversion [!s], and an empty format
    specification.  [None] stands for a replacement field outside this
    fragment (an attribute lookup, the conversions [!r] and [!a], a
    non-empty format specification, a name or an index that [get_integer]
    does not decide), whose result is not modelled. *)
Definition result : Type := option (outcome string).

(** The lookups [[...]] that follow the first part of a field name, applied
    to the string [obj].  [fuel] bounds the number of lookups by the length
    of the field name. *)
Fixpoint accessors (fuel : nat) (obj : string) (rest : string) : result :=
  match rest with
  | EmptyString => Some (Ok obj)
  | String c rest' =>
      match fuel with
      | O => None
      | S fuel' =>
          if Ascii.eqb c "."%char then None
          else if Ascii.eqb c "["%char then
            match split_bracket rest' with
            | None => Some (Raise ValueError)
            | Some (name, rest'') =>
                match get_integer name with
                | None => None
                | Some TooManyDigits => Some (Raise ValueError)
                | Some NotInteger =>
                    if String.eqb name EmptyString then Some (Raise ValueError)
                    else Some (Raise TypeError)
                | Some (IsInteger i) =>
                    match char_at obj i with
                    | None => Some (Raise IndexError)
                    | Some ch => accessors fuel' (String ch EmptyString) rest''
                    end
                end
            end
          else Some (Raise ValueError)
      end
  end.

(** [get_field_object]: the object a field name denotes.  A first part
    with too many digits raises [ValueError]; there are no positional
    arguments, so a first part that is empty or a number raises
    [IndexError]; any other first part is looked up among the keywords. *)
Definition get_field_object (f : Fields) (field_name : string) : result :=
  let '(first, rest) := split_first field_name in
  match get_integer first with
  | None => None
  | Some TooManyDigits => Some (Raise ValueError)
  | Some (IsInteger _) => Some (Raise IndexError)
  | Some NotInteger =>
      if String.eqb first EmptyString then Some (Raise IndexError)
      else match kwargs f first with
           | None => Some (Raise (KeyError first))
           | Some obj => accessors (String.length rest) obj rest
           end
  end.

(** [output_markup]: one replacement field is rendered: the object is
    looked up, converted, and formatted with the format specification. *)
Definition output_markup (f : Fields) (field_name : string)
    (conversion : option ascii) (format_spec : string) : result :=
  match get_field_object f field_name with
  | Some (Ok obj) =>
      match conversion with
      | None =>
          if String.eqb format_spec EmptyString then Some (Ok obj) else None
      | Some c =>
          if Ascii.eqb c "s"%char then
            if String.eqb format_spec EmptyString then Some (Ok obj) else None
          else if Ascii.eqb c "r"%char || Ascii.eqb c "a"%char then None
          else Some (Raise ValueError)
      end
  | r => r
  end.

(** Where the scanner of the format string is. *)
Inductive mode : Type :=
| Text                                  (* literal text *)
| Open                                  (* just after a ["{"] *)
| Close                                 (* just after a ["}"] *)
| Name (name : string) (bracket : bool) (* in a field name; inside [[..]] *)
| Conv (name : string)                  (* just after ["!"] *)
| ConvEnd (name : string) (c : ascii)   (* after the conversion character *)
| Spec (name : string) (conv : option ascii) (spec : string) (depth : nat).

Definition snoc (s : string) (c : ascii) : string := s ++ String c EmptyString.

(** A rendered field is put before the rendering of the rest. *)
Definition emit (r : result) (k : result) : result :=
  match r with
  | Some (Ok v) =>
      match k with
      | Some (Ok s) => Some (Ok (v ++ s))
      | other => other
      end
  | other => other
  end.

(** [MarkupIterator_next] and [parse_field], character by character: the
    literal text is copied, ["{{"] and ["}}"] give one brace, a replacement
    field is rendered as soon as its closing brace is read, so that the
    first error from the left is the one raised. *)
Fixpoint scan (f : Fields) (m : mode) (s : string) : result :=
  match s with
  | EmptyString =>
      match m with
      | Text => Some (Ok EmptyString)
      | _ => Some (Raise ValueError)
      end
  | String c s' =>
      let lit := emit (Some (Ok (String c EmptyString))) in
      match m with
      | Text =>
          if Ascii.eqb c "{"%char then scan f Open s'
          else if Ascii.eqb c "}"%char then scan f Close s'
          else lit (scan f Text s')
      | Close =>
          if Ascii.eqb c "}"%char then lit (scan f Text s')
          else Some (Raise ValueError)
      | Open | Name _ _ =>
          let name := match m with Name n _ => n | _ => EmptyString end in
          let bracket := match m with Name _ b => b | _ => false end in
          if bracket then
            scan f (Name (snoc name c) (negb (Ascii.eqb c "]"%char))) s'
          else if Ascii.eqb c "{"%char then
            match m with
            | Open => lit (scan f Text s')
            | _ => Some (Raise ValueError)
            end
          else if Ascii.eqb c "["%char then scan f (Name (snoc name c) true) s'
          else if Ascii.eqb c "}"%char then
            emit (output_markup f name None EmptyString) (scan f Text s')
          else if Ascii.eqb c ":"%char then scan f (Spec name None EmptyString 1) s'
          else if Ascii.eqb c "!"%char then scan f (Conv name) s'
          else scan f (Name (snoc name c) false) s'
      | Conv name => scan f (ConvEnd name c) s'
      | ConvEnd name cv =>
          if Ascii.eqb c "}"%char then
            emit (output_markup f name (Some cv) EmptyString) (scan f Text s')
          else if Ascii.eqb c ":"%char then
            scan f (Spec name (Some cv) EmptyString 1) s'
          else Some (Raise ValueError)
      | Spec name cv spec depth =>
          if Ascii.eqb c "{"%char then
            scan f (Spec name cv (snoc spec c) (S depth)) s'
          else if Ascii.eqb c "}"%char then
            match depth with
            | 1%nat =>
                emit (output_markup f name cv spec) (scan f Text s')
            | _ => scan f (Spec name cv (snoc spec c) (Nat.pred depth)) s'
            end
          else scan f (Spec name cv (snoc spec c) depth) s'
      end
  end.

(** [template.format(experiment=.., run=.., variable=.., institution=..,
    model=.., estimate=.., version=..)]. *)
Definition format (template : string) (f : Fields) : result :=
  scan f Text template.

(** The text with every brace doubled: how a format string spells literal
    braces. *)
Fixpoint escape (s : string) : string :=
  match s with
  | EmptyString => EmptyString
  | String c s' =>
      if Ascii.eqb c "{"%char || Ascii.eqb c "}"%char
      then String c (String c (escape s'))
      else String c (escape s')
  end.

(** A character that neither ends a field name nor starts a lookup, a
    conversion or a format specification. *)
Definition plain_char (c : ascii) : bool :=
  negb (PyStr.contains_char "{}[.!:" c).

(** A field name that is looked up as it stands among the keywords: not
    empty, made of plain characters, and for which [get_integer] answers
    [-1] without an error (it is not a number, and no overflow is met
    before its first character that is not a digit). *)
Definition plain_name (name : string) : bool :=
  negb (String.eqb name EmptyString)
  && PyStr.all_chars plain_char name
  && match get_integer name with Some NotInteger => true | _ => false end.

End Format.

(** ** Templates made of literal text and placeholders *)

Module Template.

(** The seven fields a template can refer to. *)
Inductive field : Type :=
| KExperiment | KRun | KVariable | KInstitution | KModel | KEstimate | KVersion.

Definition field_name (k : field) : string :=
  match k with
  | KExperiment => "experiment"
  | KRun => "run"
  | KVariable => "variable"
  | KInstitution => "institution"
  | KModel => "model"
  | KEstimate => "estimate"
  | KVersion => "version"
  end.

Definition field_value (f : Fields) (k : field) : string :=
  match k with
  | KExperiment => f_experiment f
  | KRun => f_run f
  | KVariable => f_variable f
  | KInstitution => f_institution f
  | KModel => f_model f
  | KEstimate => f_estimate f
  | KVersion => f_version f
  end.

(** A piece of a template: literal text, or the placeholder of a field. *)
Inductive piece : Type :=
| Lit (text : string)
| Hole (k : field).

(** The template string a list of pieces stands for. *)
Fixpoint template_of (ps : list piece) : string :=
  match ps with
  | [] => EmptyString
  | Lit text :: ps' => text ++ template_of ps'
  | Hole k :: ps' => "{" ++ field_name k ++ "}" ++ template_of ps'
  end.

(** The template with the value of each field at the place of its
    placeholder. *)
Fixpoint fill (f : Fields) (ps : list piece) : string :=
  match ps with
  | [] => EmptyString
  | Lit text :: ps' => text ++ fill f ps'
  | Hole k :: ps' => field_value f k ++ fill f ps'
  end.

(** No brace, hence no placeholder syntax, in a string. *)
Definition brace_free (s : string) : bool :=
  negb (PyStr.contains_char s "{") && negb (PyStr.contains_char s "}").

Definition literals_brace_free (ps : list piece) : bool :=
  forallb (fun p => match p with Lit text => brace_free text | Hole _ => true end)
    ps.

(** The values of the fields are free of braces. *)
Definition valid_fields (f : Fields) : bool :=
  forallb (fun k => brace_free (field_value f k))
    [KExperiment; KRun; KVariable; KInstitution; KModel; KEstimate; KVersion].

(** The pieces of the default template (line 15). *)
Definition default_pieces : list piece :=
  [Lit "/nersc/s/stoned/C20C/"; Hole KInstitution; Lit "/"; Hole KModel;
   Lit "/"; Hole KExperiment; Lit "/"; Hole KEstimate; Lit "/"; Hole KVersion;
   Lit "/3hr/atmos/"; Hole KVariable; Lit "/"; Hole KRun; Lit "/";
   Hole KVariable; Lit "_A3hr_"; Hole KModel; Lit "_"; Hole KExperiment;
   Lit "_"; Hole KEstimate; Lit "_"; Hole KVersion; Lit "_"; Hole KRun;
   Lit ".tar"].

End Template.

(** ** The process and its environment *)

(** How the run of an external command ends: the child exits with a return
    code, or it could not be started and [subprocess.run] raised. *)
Inductive completed : Type :=
| Exited (returncode : Z)
| NotStarted (e : exn).

(** One call of [subprocess.run]: the argument vector and how it ended. *)
Record event : Type := Invoked { argv : list string; ended : completed }.

(** What the interpreter and the operating system provide, for a type [FS]
    of file-system states.  Paths are passed as the program wrote them,
    together with the working directory they are relative to.
    - [sys_format] is [str.format] on the seven keyword arguments: it is
      part of the interface because [Format.format] models a fragment of it
      only, and the properties of the run hold for every format function;
    - [sys_isdir], [sys_listdir], [sys_makedirs] are [os.path.isdir],
      [os.listdir] and [os.makedirs(.., exist_ok = True)];
    - [sys_chdir] is [os.chdir] followed by [os.getcwd]: the process
      changes into a directory, and the answer is the path of the directory
      it is then in, which need not be the path it asked for joined to the
      one it came from ([out/] leads to [out], a link to its target);
    - [sys_chdir_back]: the directories keep their names while the program
      runs: from a directory reached from [p], changing into [p] by this
      absolute path leads back to [p];
    - [sys_run] runs a command to its end: a child process changes the file
      system, never the working directory of its parent. *)
Class System (FS : Type) : Type := {
  sys_format : string -> Fields -> outcome string;
  sys_isdir : FS -> string -> string -> bool;
  sys_listdir : FS -> string -> string -> outcome (list string);
  sys_makedirs : FS -> string -> string -> outcome unit * FS;
  sys_chdir : FS -> string -> string -> outcome string;
  sys_run : FS -> string -> list string -> completed * FS;
  sys_chdir_back : forall fs0 fs1 p d c q,
    PosixPath.isabs p = true ->
    sys_chdir fs0 p d = Ok c -> sys_chdir fs1 c p = Ok q -> q = p;
}.

(** The state of the process: its working directory (an absolute path, what
    [os.getcwd] returns), the file system, the commands run so far (oldest
    first) and the lines printed so far. *)
Record state (FS : Type) : Type := mkState {
  cwd : string;
  fs : FS;
  history : list event;
  stdout : list string;
}.
Arguments mkState {FS} _ _ _ _.
Arguments cwd {FS} _.
Arguments fs {FS} _.
Arguments history {FS} _.
Arguments stdout {FS} _.

(** ** The state and exception monad *)

Definition M (FS A : Type) : Type := state FS -> outcome A * state FS.

Definition ret {FS A} (a : A) : M FS A := fun st => (Ok a, st).

Definition raise {FS A} (e : exn) : M FS A := fun st => (Raise e, st).

Definition bind {FS A B} (m : M FS A) (k : A -> M FS B) : M FS B :=
  fun st =>
    match m st with
    | (Ok a, st') => k a st'
    | (Raise e, st') => (Raise e, st')
    end.

(** [try: m except: h]: a bare [except] catches every exception. *)
Definition try_except {FS A} (m : M FS A) (h : exn -> M FS A) : M FS A :=
  fun st =>
    match m st with
    | (Ok a, st') => (Ok a, st')
    | (Raise e, st') => h e st'
    end.

(** A pure computation that may raise. *)
Definition lift {FS A} (r : outcome A) : M FS A := fun st => (r, st).

Declare Scope py_scope.
Delimit Scope py_scope with py.
Notation "x <- m ;; k" := (bind m (fun x => k))
  (at level 100, m at next level, right associativity) : py_scope.
Notation "m ;;; k" := (bind m (fun _ => k))
  (at level 100, right associativity) : py_scope.

(** ** The arguments of [extract_c20c_data] *)

Record Args : Type := mkArgs {
  experiment : string;
  run : string;
  variable_list : option (list string);
  institution : string;
  model : string;
  estimate : string;
  version : string;
  path_template : string;
  verbose : bool;
  output_directory : option string;
  verify_first : bool;
  clobber : bool;
  htar_threads : Z;
}.

Definition default_path_template : string :=
  "/nersc/s/stoned/C20C/{institution}/{model}/{experiment}/{estimate}/{version}/3hr/atmos/{variable}/{run}/{variable}_A3hr_{model}_{experiment}_{estimate}_{version}_{run}.tar".

(** The default values of the parameters (lines 8-20). *)
Definition default_args : Args := {|
  experiment := "All-Hist";
  run := "run001";
  variable_list := None;
  institution := "LBNL";
  model := "CAM5-1-1degree";
  estimate := "est1";
  version := "v2-0";
  path_template := default_path_template;
  verbose := true;
  output_directory := None;
  verify_first := true;
  clobber := true;
  htar_threads := 15;
|}.

(** The same arguments with another verbosity. *)
Definition set_verbose (b : bool) (a : Args) : Args := {|
  experiment := experiment a;
  run := run a;
  variable_list := variable_list a;
  institution := institution a;
  model := model a;
  estimate := estimate a;
  version := version a;
  path_template := path_template a;
  verbose := b;
  output_directory := output_directory a;
  verify_first := verify_first a;
  clobber := clobber a;
  htar_threads := htar_threads a;
|}.

(** ** The command line (lines 157-244) *)

(** What [parser.parse_args()] holds once the options are recognised: the
    six positional arguments, and the options with their defaults
    (lines 186-225).  [ns_variable_list] is the text given to
    [--variable_list], before its [type] function is applied. *)
Record Namespace : Type := mkNamespace {
  ns_experiment : string;
  ns_run : string;
  ns_institution : string;
  ns_model : string;
  ns_estimate : string;
  ns_version : string;
  ns_variable_list : option string;
  ns_path_template : string;
  ns_output_directory : option string;
  ns_quiet : bool;
  ns_no_verify_first : bool;
  ns_no_clobber : bool;
  ns_htar_threads : Z;
}.

(** Line 189: [type = lambda arg: arg.split(',')]. *)
Definition parse_variable_list (arg : string) : list string :=
  PyStr.split arg ","%char.

(** Lines 230-244: the arguments of the call of [extract_c20c_data]. *)
Definition main_args (ns : Namespace) : Args := {|
  experiment := ns_experiment ns;
  run := ns_run ns;
  variable_list :=
    match ns_variable_list ns with
    | Some arg => Some (parse_variable_list arg)
    | None => None
    end;
  institution := ns_institution ns;
  model := ns_model ns;
  estimate := ns_estimate ns;
  version := ns_version ns;
  path_template := ns_path_template ns;
  verbose := negb (ns_quiet ns);
  output_directory := ns_output_directory ns;
  verify_first := negb (ns_no_verify_first ns);
  clobber := negb (ns_no_clobber ns);
  htar_threads := ns_htar_threads ns;
|}.

(** The namespace of a command line with the six positional arguments and
    no option. *)
Definition default_namespace (experiment_ run_ institution_ model_ estimate_
    version_ : string) : Namespace := {|
  ns_experiment := experiment_;
  ns_run := run_;
  ns_institution := institution_;
  ns_model := model_;
  ns_estimate := estimate_;
  ns_version := version_;
  ns_variable_list := None;
  ns_path_template := default_path_template;
  ns_output_directory := None;
  ns_quiet := false;
  ns_no_verify_first := false;
  ns_no_clobber := false;
  ns_htar_threads := 15;
|}.

(** The keyword arguments of [path_template.format] for one variable. *)
Definition fields_of (a : Args) (variable : string) : Fields := {|
  f_experiment := experiment a;
  f_run := run a;
  f_variable := variable;
  f_institution := institution a;
  f_model := model a;
  f_estimate := estimate a;
  f_version := version a;
|}.

(** Lines 116-122: the output directory of one variable.  Without an
    explicit directory it mirrors the path on tape from the institution
    label on. *)
Definition out_dir_of (output_directory : option string)
    (institution htar_path : string) : string :=
  match output_directory with
  | None =>
      let i_path_start := PyStr.find htar_path institution in
      let path_substr := PyStr.slice_from htar_path i_path_start in
      PosixPath.dirname path_substr
  | Some d => d
  end.

(** The messages and argument vectors the function builds. *)
Definition msg_checking : string :=
  "Checking that expected tar files exist on tape...".
Definition msg_verify_failed (htar_path : string) : string :=
  "Failed to verify that `" ++ htar_path ++ "` exists.".
Definition msg_skipping (out_dir : string) : string :=
  "Files exist in `" ++ out_dir ++ "` and clobber = False; skipping.".
Definition msg_extracting (variable htar_path : string) : string :=
  "Extracting `" ++ variable ++ "` from `" ++ htar_path
  ++ "`; this may take some time...".
Definition hsi_argv (htar_path : string) : list string :=
  ["hsi"; PyStr.rstrip ("ls " ++ htar_path)].
Definition htar_argv (htar_threads : Z) (htar_path : string) : list string :=
  ["htar"; "-T"; pretty htar_threads; "-xf"; htar_path].

(** The exception [subprocess.run(args, check = True)] raises for a command
    that did not end with the return code zero. *)
Definition exn_of_run (args : list string) (c : completed) : exn :=
  match c with
  | Exited rc => CalledProcessError rc args
  | NotStarted e => e
  end.

(** Which program an event ran, and whether it ended with return code 0. *)
Definition program_is (prog : string) (ev : event) : bool :=
  match argv ev with
  | p :: _ => String.eqb p prog
  | [] => false
  end.
Definition is_hsi : event -> bool := program_is "hsi".
Definition is_htar : event -> bool := program_is "htar".
Definition succeeded (ev : event) : bool :=
  match ended ev with
  | Exited rc => rc =? 0
  | NotStarted _ => false
  end.

(** The runs of one program in a history. *)
Definition invocations (prog : string) (l : list event) : list event :=
  List.filter (program_is prog) l.

(** How the body of the second loop ends: the loop goes on with the next
    variable, or the function returns. *)
Inductive flow : Type := Next | Return.

Section Extractor.

Context {FS : Type} {Sys : System FS}.
Local Open Scope py_scope.

(** *** Primitives *)

Definition print (line : string) : M FS unit :=
  fun st => (Ok tt, mkState (cwd st) (fs st) (history st) (stdout st ++ [line])).

(** Lines 75-78. *)
Definition vprint (a : Args) (line : string) : M FS unit :=
  if verbose a then print line else ret tt.

Definition os_path_isdir (p : string) : M FS bool :=
  fun st => (Ok (sys_isdir (fs st) (cwd st) p), st).

Definition os_listdir (p : string) : M FS (list string) :=
  fun st => (sys_listdir (fs st) (cwd st) p, st).

Definition os_makedirs (p : string) : M FS unit :=
  fun st =>
    let '(r, fs') := sys_makedirs (fs st) (cwd st) p in
    (r, mkState (cwd st) fs' (history st) (stdout st)).

Definition os_getcwd : M FS string := fun st => (Ok (cwd st), st).

Definition os_chdir (p : string) : M FS unit :=
  fun st =>
    match sys_chdir (fs st) (cwd st) p with
    | Ok q => (Ok tt, mkState q (fs st) (history st) (stdout st))
    | Raise e => (Raise e, st)
    end.

(** [subprocess.run(args, check = True)]: the command is run and recorded;
    a return code other than zero raises [CalledProcessError]. *)
Definition subprocess_run (args : list string) : M FS unit :=
  fun st =>
    let '(r, fs') := sys_run (fs st) (cwd st) args in
    let st' := mkState (cwd st) fs' (history st ++ [Invoked args r]) (stdout st) in
    match r with
    | Exited rc =>
        if rc =? 0 then (Ok tt, st')
        else (Raise (CalledProcessError rc args), st')
    | NotStarted e => (Raise e, st')
    end.

(** [d[k]]. *)
Definition dict_get (d : gmap string string) (k : string) : M FS string :=
  match d !! k with
  | Some v => ret v
  | None => raise (KeyError k)
  end.

(** *** Lines 90-109: the paths are built and verified *)

Fixpoint verify_loop (a : Args) (variables : list string)
    (htar_paths : gmap string string) : M FS (gmap string string) :=
  match variables with
  | [] => ret htar_paths
  | variable :: variables' =>
      htar_path <- lift (sys_format (path_template a) (fields_of a variable)) ;;
      let htar_paths := <[variable := htar_path]> htar_paths in
      (if verify_first a then
         try_except (subprocess_run (hsi_argv htar_path))
           (fun _ => raise (RuntimeError (msg_verify_failed htar_path)))
       else ret tt) ;;;
      verify_loop a variables' htar_paths
  end.

(** *** Lines 112-151: the variables are extracted *)

(** Lines 126-132: [true] when the function has to return at once. *)
Definition clobber_check (a : Args) (out_dir : string) : M FS bool :=
  if negb (clobber a) then
    isdir <- os_path_isdir out_dir ;;
    if isdir then
      entries <- os_listdir out_dir ;;
      if negb (Z.of_nat (length entries) =? 0) then
        vprint a (msg_skipping out_dir) ;;; ret true
      else ret false
    else ret false
  else ret false.

Fixpoint extract_loop (a : Args) (variables : list string)
    (htar_paths : gmap string string) : M FS flow :=
  match variables with
  | [] => ret Next
  | variable :: variables' =>
      htar_path <- dict_get htar_paths variable ;;
      let out_dir := out_dir_of (output_directory a) (institution a) htar_path in
      skip <- clobber_check a out_dir ;;
      if skip then ret Return
      else
        os_makedirs out_dir ;;;
        cwd <- os_getcwd ;;
        os_chdir out_dir ;;;
        vprint a (msg_extracting variable htar_path) ;;;
        subprocess_run (htar_argv (htar_threads a) htar_path) ;;;
        os_chdir cwd ;;;
        extract_loop a variables' htar_paths
  end.

(** What follows the second loop over the first part of a list. *)
Definition and_then (a : Args) (paths : gmap string string)
    (rest : list string) (f : flow) : M FS flow :=
  match f with
  | Next => extract_loop a rest paths
  | Return => ret Return
  end.

(** *** [extract_c20c_data] *)

Definition variables_of (a : Args) : list string :=
  match variable_list a with
  | None => ["hus"; "ua"; "va"]
  | Some l => l
  end.

(** Lines 86-109. *)
Definition build_htar_paths (a : Args) : M FS (gmap string string) :=
  (if verify_first a then vprint a msg_checking else ret tt) ;;;
  verify_loop a (variables_of a) ∅.

Definition extract_c20c_data (a : Args) : M FS unit :=
  htar_paths <- build_htar_paths a ;;
  _ <- extract_loop a (variables_of a) htar_paths ;;
  ret tt.

(** *** Vocabulary of the statements *)

(** The rendering of the path of one variable, and the path when the
    rendering succeeds. *)
Definition rendered (a : Args) (variable : string) : outcome string :=
  sys_format (path_template a) (fields_of a variable).

Definition path_of (a : Args) (variable : string) : string :=
  match rendered a variable with
  | Ok p => p
  | Raise _ => EmptyString
  end.

(** The destination directory of one variable. *)
Definition dest_of (a : Args) (variable : string) : string :=
  out_dir_of (output_directory a) (institution a) (path_of a variable).

(** The successful existence check and the successful extraction of one
    variable, as they appear in the history. *)
Definition hsi_ok (a : Args) (variable : string) : event :=
  Invoked (hsi_argv (path_of a variable)) (Exited 0).

Definition htar_ok (a : Args) (variable : string) : event :=
  Invoked (htar_argv (htar_threads a) (path_of a variable)) (Exited 0).

(** The commands run between two states. *)
Definition new_events (st st' : state FS) : list event :=
  drop (length (history st)) (history st').

(** An event of the history records what the command answered in some
    state of the file system, and a computation keeps the record when it
    only adds such events to the history. *)
Definition recorded (ev : event) : Prop :=
  exists fs0 c, fst (sys_run fs0 c (argv ev)) = ended ev.

Definition faithful (st0 st : state FS) : Prop :=
  exists new, history st = (history st0 ++ new)%list /\ Forall recorded new.

Definition keeps_record {A : Type} (m : M FS A) : Prop :=
  forall st0 st r st', faithful st0 st -> m st = (r, st') -> faithful st0 st'.

(** What a run of the first loop over [vars] from [st] amounts to: the
    variables [done] were rendered (and checked, when asked for), and the
    loop ended there, with every variable done or with an exception at the
    next one. *)
Definition verify_post (a : Args) (vars : list string)
    (paths : gmap string string) (st : state FS)
    (r : outcome (gmap string string)) (st' : state FS) : Prop :=
  cwd st' = cwd st /\ stdout st' = stdout st /\
  exists (done post : list string) (tail : list event),
    vars = (done ++ post)%list /\
    (forall v, v ∈ done -> rendered a v = Ok (path_of a v)) /\
    history st'
    = (history st ++ (if verify_first a then map (hsi_ok a) done else [])
         ++ tail)%list /\
    match r with
    | Ok paths' =>
        post = [] /\ tail = [] /\
        (forall v, v ∈ vars -> paths' !! v = Some (path_of a v)) /\
        (forall v, v ∉ vars -> paths' !! v = paths !! v)
    | Raise e =>
        exists v post', post = v :: post' /\
          ((tail = [] /\ rendered a v = Raise e)
           \/ (verify_first a = true /\ rendered a v = Ok (path_of a v) /\
               exists res,
                 tail = [Invoked (hsi_argv (path_of a v)) res] /\
                 res <> Exited 0 /\
                 e = RuntimeError (msg_verify_failed (path_of a v))))
    end.

(** The extraction command of [v] ended with [res] in the directory that
    [os.chdir] reached for the destination of [v] from the working
    directory of [st], and this directory is the working directory of
    [st']. *)
Definition ran_in_destination (a : Args) (v : string) (st : state FS)
    (res : completed) (st' : state FS) : Prop :=
  exists fs0,
    sys_chdir fs0 (cwd st) (dest_of a v) = Ok (cwd st') /\
    sys_run fs0 (cwd st') (htar_argv (htar_threads a) (path_of a v))
    = (res, fs st').

(** The exception [e] was raised by the file system, at the end of a run
    from [st] to [st'] over [vars]: by [os.listdir], [os.makedirs] or
    [os.chdir] on the destination of one of the variables, or by [os.chdir]
    on the way back to the directory the run started in. *)
Definition file_system_raised (a : Args) (vars : list string)
    (st st' : state FS) (e : exn) : Prop :=
  (exists v, v ∈ vars /\
     (sys_listdir (fs st') (cwd st') (dest_of a v) = Raise e
      \/ (exists fs0,
            sys_makedirs fs0 (cwd st') (dest_of a v) = (Raise e, fs st'))
      \/ sys_chdir (fs st') (cwd st') (dest_of a v) = Raise e))
  \/ (exists back,
        (PosixPath.isabs (cwd st) = true -> back = cwd st) /\
        sys_chdir (fs st') (cwd st') back = Raise e).

(** What a run of the second loop over [vars] from [st] amounts to: the
    variables [done] were extracted, and the loop ended there: with every
    variable done, with the early return at the next one, or with an
    exception (of the extraction command, which is then the last command
    run, or of the file system). *)
Definition extract_post (a : Args) (vars : list string)
    (st : state FS) (r : outcome flow) (st' : state FS) : Prop :=
  exists (done post : list string) (tail : list event),
    vars = (done ++ post)%list /\
    history st' = (history st ++ map (htar_ok a) done ++ tail)%list /\
    match r with
    | Ok Next =>
        post = [] /\ tail = [] /\
        (PosixPath.isabs (cwd st) = true -> cwd st' = cwd st)
    | Ok Return =>
        tail = [] /\
        (PosixPath.isabs (cwd st) = true -> cwd st' = cwd st) /\
        exists v post', post = v :: post' /\ clobber a = false /\
          sys_isdir (fs st') (cwd st') (dest_of a v) = true /\
          exists e es,
            sys_listdir (fs st') (cwd st') (dest_of a v) = Ok (e :: es)
    | Raise e =>
        (tail = [] /\ file_system_raised a vars st st' e)
        \/ exists v post' res, post = v :: post' /\
             tail = [Invoked (htar_argv (htar_threads a) (path_of a v)) res] /\
             res <> Exited 0 /\
             e = exn_of_run (htar_argv (htar_threads a) (path_of a v)) res /\
             (PosixPath.isabs (cwd st) = true ->
              ran_in_destination a v st res st')
    end.

(** The existence checks of a list of variables, when they are asked for. *)
Definition checks (a : Args) (vars : list string) : list event :=
  if verify_first a then map (hsi_ok a) vars else [].

Definition all_rendered (a : Args) (vars : list string) : Prop :=
  forall v, v ∈ vars -> rendered a v = Ok (path_of a v).

(** The six ways a run can end, with the commands it has run by then. *)
Inductive ending (a : Args) (st : state FS) (r : outcome unit)
    (st' : state FS) : Prop :=
| TemplateFailed (pre : list string) (v : string) (post : list string)
    (e : exn) :
    variables_of a = (pre ++ v :: post)%list ->
    all_rendered a pre ->
    rendered a v = Raise e ->
    r = Raise e ->
    new_events st st' = checks a pre ->
    cwd st' = cwd st ->
    ending a st r st'
| VerificationFailed (pre : list string) (v : string) (post : list string)
    (res : completed) :
    verify_first a = true ->
    variables_of a = (pre ++ v :: post)%list ->
    all_rendered a (pre ++ [v]) ->
    res <> Exited 0 ->
    r = Raise (RuntimeError (msg_verify_failed (path_of a v))) ->
    new_events st st'
    = (map (hsi_ok a) pre ++ [Invoked (hsi_argv (path_of a v)) res])%list ->
    cwd st' = cwd st ->
    ending a st r st'
| Completed :
    all_rendered a (variables_of a) ->
    r = Ok tt ->
    new_events st st'
    = (checks a (variables_of a) ++ map (htar_ok a) (variables_of a))%list ->
    (PosixPath.isabs (cwd st) = true -> cwd st' = cwd st) ->
    ending a st r st'
| Skipped (pre : list string) (v : string) (post : list string)
    (entry : string) (entries : list string) :
    clobber a = false ->
    variables_of a = (pre ++ v :: post)%list ->
    all_rendered a (variables_of a) ->
    sys_isdir (fs st') (cwd st') (dest_of a v) = true ->
    sys_listdir (fs st') (cwd st') (dest_of a v) = Ok (entry :: entries) ->
    r = Ok tt ->
    new_events st st'
    = (checks a (variables_of a) ++ map (htar_ok a) pre)%list ->
    (PosixPath.isabs (cwd st) = true -> cwd st' = cwd st) ->
    ending a st r st'
| ExtractionFailed (pre : list string) (v : string) (post : list string)
    (res : completed) :
    variables_of a = (pre ++ v :: post)%list ->
    all_rendered a (variables_of a) ->
    res <> Exited 0 ->
    r = Raise (exn_of_run (htar_argv (htar_threads a) (path_of a v)) res) ->
    new_events st st'
    = (checks a (variables_of a) ++ map (htar_ok a) pre
       ++ [Invoked (htar_argv (htar_threads a) (path_of a v)) res])%list ->
    (PosixPath.isabs (cwd st) = true -> ran_in_destination a v st res st') ->
    ending a st r st'
| SystemFailed (pre post : list string) (e : exn) :
    variables_of a = (pre ++ post)%list ->
    all_rendered a (variables_of a) ->
    r = Raise e ->
    new_events st st'
    = (checks a (variables_of a) ++ map (htar_ok a) pre)%list ->
    file_system_raised a (variables_of a) st st' e ->
    ending a st r st'.



(** Lines 230-244: the call the command line makes. *)
Definition main (ns : Namespace) : M FS unit :=
  extract_c20c_data (main_args ns).

(** A computation that prints nothing. *)
Definition silent {A : Type} (m : M FS A) : Prop :=
  forall st r st', m st = (r, st') -> stdout st' = stdout st.

(** Two states that differ in the lines printed only, and two computations
    that do the same from such states, but for what they print. *)
Definition same_but_output (st1 st2 : state FS) : Prop :=
  cwd st1 = cwd st2 /\ fs st1 = fs st2 /\ history st1 = history st2.

Definition agree {A : Type} (m1 m2 : M FS A) : Prop :=
  forall st1 st2, same_but_output st1 st2 ->
    fst (m1 st1) = fst (m2 st2) /\
    same_but_output (snd (m1 st1)) (snd (m2 st2)).

(** The line printed before the extraction of a variable. *)
Definition extracting_line (a : Args) (variable : string) : string :=
  msg_extracting variable (path_of a variable).

(** The implementation of [str.format] answers for this template and
    these fields as the modelled fragment does, when the fragment has an
    answer for them. *)
Definition formats_as_modelled_at (template : string) (f : Fields) : Prop :=
  forall r, Format.format template f = Some r -> sys_format template f = r.

End Extractor.

(** ** A small concrete system *)

Module Toy.

(** The archives on tape, the local directories with their entries, and
    the archives whose extraction fails. *)
Record toy_fs : Type := mkToy {
  tape : list string;
  broken : list string;
  dirs : list (string * list string);
}.

Fixpoint lookup_dir (p : string) (l : list (string * list string))
    : option (list string) :=
  match l with
  | [] => None
  | (q, es) :: l' => if String.eqb p q then Some es else lookup_dir p l'
  end.

Definition mem (x : string) (l : list string) : bool :=
  existsb (String.eqb x) l.

(** The format of the examples: [Format.format] on the modelled fragment. *)
Definition toy_format (t : string) (f : Fields) : outcome string :=
  match Format.format t f with
  | Some r => r
  | None => Raise NotImplementedError
  end.

Definition resolve (cwd p : string) : option string :=
  if String.eqb p EmptyString then None else Some (PosixPath.join cwd p).

Definition toy_isdir (t : toy_fs) (cwd p : string) : bool :=
  match resolve cwd p with
  | Some q => match lookup_dir q (dirs t) with Some _ => true | None => false end
  | None => false
  end.

Definition toy_listdir (t : toy_fs) (cwd p : string) : outcome (list string) :=
  match resolve cwd p with
  | Some q =>
      match lookup_dir q (dirs t) with
      | Some es => Ok es
      | None => Raise (OSError p)
      end
  | None => Raise (OSError p)
  end.

Definition toy_makedirs (t : toy_fs) (cwd p : string) : outcome unit * toy_fs :=
  match resolve cwd p with
  | Some q =>
      match lookup_dir q (dirs t) with
      | Some _ => (Ok tt, t)
      | None => (Ok tt, mkToy (tape t) (broken t) ((q, []) :: dirs t))
      end
  | None => (Raise (OSError p), t)
  end.

Definition toy_chdir (t : toy_fs) (cwd p : string) : outcome string :=
  if toy_isdir t cwd p then Ok (PosixPath.join cwd p) else Raise (OSError p).

Definition toy_chdir_back (fs0 fs1 : toy_fs) (p d c q : string) :
  PosixPath.isabs p = true ->
  toy_chdir fs0 p d = Ok c -> toy_chdir fs1 c p = Ok q -> q = p.
Proof.
  unfold toy_chdir. intros Habs _ Hq.
  destruct (toy_isdir fs1 c p); [|discriminate].
  inversion Hq. unfold PosixPath.join. rewrite Habs. reflexivity.
Qed.

(** [hsi "ls p"] succeeds for the archives on tape; [htar .. -xf p] puts
    one file into the working directory, and fails for a broken archive. *)
Definition toy_run (t : toy_fs) (cwd : string) (args : list string)
    : completed * toy_fs :=
  match args with
  | [prog; cmd] =>
      if String.eqb prog "hsi" then
        (if mem (PyStr.drop 3 cmd) (tape t) then Exited 0 else Exited 64, t)
      else (NotStarted (OSError prog), t)
  | [prog; _; _; _; p] =>
      if String.eqb prog "htar" then
        if mem p (tape t) && negb (mem p (broken t))
        then (Exited 0, mkToy (tape t) (broken t) ((cwd, [p]) :: dirs t))
        else (Exited 72, t)
      else (NotStarted (OSError prog), t)
  | prog :: _ => (NotStarted (OSError prog), t)
  | [] => (NotStarted ValueError, t)
  end.

#[export] Instance toy_system : System toy_fs := {|
  sys_format := toy_format;
  sys_isdir := toy_isdir;
  sys_listdir := toy_listdir;
  sys_makedirs := toy_makedirs;
  sys_chdir := toy_chdir;
  sys_run := toy_run;
  sys_chdir_back := toy_chdir_back;
|}.

(** The same system on a machine without the two commands. *)
Definition offline_run (t : toy_fs) (cwd : string) (args : list string)
    : completed * toy_fs :=
  (NotStarted (OSError (hd EmptyString args)), t).

Definition offline_system : System toy_fs := {|
  sys_format := toy_format;
  sys_isdir := toy_isdir;
  sys_listdir := toy_listdir;
  sys_makedirs := toy_makedirs;
  sys_chdir := toy_chdir;
  sys_run := offline_run;
  sys_chdir_back := toy_chdir_back;
|}.

Definition start (t : toy_fs) : state toy_fs := mkState "/home/user" t [] [].

Definition hus_path : string :=
  "/nersc/s/stoned/C20C/LBNL/CAM5-1-1degree/All-Hist/est1/v2-0/3hr/atmos/hus/run001/hus_A3hr_CAM5-1-1degree_All-Hist_est1_v2-0_run001.tar".
Definition ua_path : string :=
  "/nersc/s/stoned/C20C/LBNL/CAM5-1-1degree/All-Hist/est1/v2-0/3hr/atmos/ua/run001/ua_A3hr_CAM5-1-1degree_All-Hist_est1_v2-0_run001.tar".
Definition va_path : string :=
  "/nersc/s/stoned/C20C/LBNL/CAM5-1-1degree/All-Hist/est1/v2-0/3hr/atmos/va/run001/va_A3hr_CAM5-1-1degree_All-Hist_est1_v2-0_run001.tar".

Definition home : list (string * list string) := [("/home/user", [])].

(** The default arguments with some of them replaced. *)
Definition args_with (variables : list string) (template : string)
    (out : option string) (verify clobber_ : bool) : Args := {|
  experiment := experiment default_args;
  run := run default_args;
  variable_list := Some variables;
  institution := institution default_args;
  model := model default_args;
  estimate := estimate default_args;
  version := version default_args;
  path_template := template;
  verbose := verbose default_args;
  output_directory := out;
  verify_first := verify;
  clobber := clobber_;
  htar_threads := htar_threads default_args;
|}.

(** Two variables, the second one not on tape. *)
Definition missing_ua_args : Args :=
  args_with ["hus"; "ua"] default_path_template None true true.
Definition missing_ua : state toy_fs := start (mkToy [hus_path] [] home).

(** Three variables, the archive of the second one broken. *)
Definition broken_ua_args : Args :=
  args_with ["hus"; "ua"; "va"] default_path_template None true true.
Definition broken_ua : state toy_fs :=
  start (mkToy [hus_path; ua_path; va_path] [ua_path] home).

(** The default run, everything on tape. *)
Definition all_on_tape : state toy_fs :=
  start (mkToy [hus_path; ua_path; va_path] [] home).

(** Two variables into one directory, without overwriting. *)
Definition no_clobber_args : Args :=
  args_with ["hus"; "ua"] default_path_template (Some "out") false false.

(** A template that takes the third character of the variable name. *)
Definition indexed_args : Args :=
  args_with ["hus"; "ua"] "/x/{variable[2]}" None true true.
Definition indexed : state toy_fs := start (mkToy ["/x/s"] [] home).

Definition default_fields : Fields := fields_of default_args "hus".

(** The default run without diagnostics, a run without verification, a run
    over no variable, and a template with a field that does not exist. *)
Definition quiet_args : Args := set_verbose false default_args.
Definition unverified_args : Args :=
  args_with ["hus"; "ua"] default_path_template None false true.
Definition empty_args : Args :=
  args_with [] default_path_template None true true.
Definition unknown_field_args : Args :=
  args_with ["hus"; "ua"] "/tape/{institution}/{frequency}/{variable}.tar"
    None true true.

End Toy.


(** * Properties *)

Local Open Scope list_scope.

(** ** The string primitives on examples *)

Example find_LBNL : PyStr.find "/a/b/LBNL/CAM5/x/hus_A3hr.tar" "LBNL" = 5.
Proof. reflexivity. Qed.
Example find_none : PyStr.find "/a/b/c.tar" "LBNL" = -1.
Proof. reflexivity. Qed.
Example find_empty : PyStr.find "" "" = 0.
Proof. reflexivity. Qed.
Example slice_m1 : PyStr.slice_from "/a/b/c.tar" (-1) = "r".
Proof. reflexivity. Qed.
Example slice_m1_empty : PyStr.slice_from "" (-1) = "".
Proof. reflexivity. Qed.
Example dirname_ex : PosixPath.dirname "LBNL/CAM5/x/hus_A3hr.tar" = "LBNL/CAM5/x".
Proof. reflexivity. Qed.
Example dirname_root : PosixPath.dirname "/" = "/".
Proof. reflexivity. Qed.
Example dirname_slashes : PosixPath.dirname "a//b" = "a".
Proof. reflexivity. Qed.
Example dirname_rootfile : PosixPath.dirname "//x" = "//".
Proof. reflexivity. Qed.
Example dirname_plain : PosixPath.dirname "r" = "".
Proof. reflexivity. Qed.
Example rstrip_ex : PyStr.rstrip "ls /a b  " = "ls /a b".
Proof. reflexivity. Qed.
Example join_ex : PosixPath.join "/home/u" "LBNL/x" = "/home/u/LBNL/x".
Proof. reflexivity. Qed.
Example format_default :
  Format.format default_path_template Toy.default_fields = Some (Ok Toy.hus_path).
Proof. reflexivity. Qed.
Example format_index :
  Format.format "/x/{variable[2]}" Toy.default_fields = Some (Ok "/x/s").
Proof. reflexivity. Qed.
Example format_escape :
  Format.format "{{{run}}}" Toy.default_fields = Some (Ok "{run001}").
Proof. reflexivity. Qed.
Example format_unknown :
  Format.format "/x/{frequency}" Toy.default_fields
  = Some (Raise (KeyError "frequency")).
Proof. reflexivity. Qed.
Example format_positional :
  Format.format "/x/{}" Toy.default_fields = Some (Raise IndexError).
Proof. reflexivity. Qed.
Example format_single_brace :
  Format.format "/x/{variable" Toy.default_fields = Some (Raise ValueError).
Proof. reflexivity. Qed.

(** ** The monad, step by step *)

Section Steps.

Context {FS : Type} {Sys : System FS}.

Lemma bind_ok {A B} (m : M FS A) (k : A -> M FS B) st a st1 :
  m st = (Ok a, st1) -> bind m k st = k a st1.
Proof. unfold bind. intros ->. reflexivity. Qed.

Lemma bind_raise {A B} (m : M FS A) (k : A -> M FS B) st e st1 :
  m st = (Raise e, st1) -> bind m k st = (Raise e, st1).
Proof. unfold bind. intros ->. reflexivity. Qed.

(** A bind that ends was run in two steps, or its first step raised. *)
Lemma bind_inv {A B} (m : M FS A) (k : A -> M FS B) st r st' :
  bind m k st = (r, st') ->
  (exists a st1, m st = (Ok a, st1) /\ k a st1 = (r, st'))
  \/ (exists e, m st = (Raise e, st') /\ r = Raise e).
Proof.
  unfold bind. destruct (m st) as [[a|e] st1]; intros Hk.
  - left. eauto.
  - right. inversion Hk; subst. eauto.
Qed.

(** What one call of [subprocess.run] does to the state. *)
Lemma subprocess_run_inv args st r st' :
  subprocess_run args st = (r, st') ->
  exists res,
    cwd st' = cwd st /\ stdout st' = stdout st /\
    history st' = history st ++ [Invoked args res] /\
    ((res = Exited 0 /\ r = Ok tt)
     \/ (res <> Exited 0 /\ r = Raise (exn_of_run args res))).
Proof.
  unfold subprocess_run.
  destruct (sys_run (fs st) (cwd st) args) as [res fs'].
  destruct res as [rc|e].
  - destruct (Z.eqb_spec rc 0) as [->|Hrc]; intros Hr; inversion Hr; subst.
    + exists (Exited 0). simpl. repeat split; auto.
    + exists (Exited rc). simpl. repeat split; auto.
      right. split; [congruence | reflexivity].
  - intros Hr; inversion Hr; subst. exists (NotStarted e). simpl.
    repeat split; auto.
Qed.

Lemma verify_loop_spec a vars : forall paths st r st',
  verify_loop a vars paths st = (r, st') ->
  verify_post a vars paths st r st'.
Proof.
  induction vars as [|v vars IH]; intros paths st r st' Hrun.
  - inversion Hrun; subst. repeat split.
    exists [], [], [].
    destruct (verify_first a); simpl; rewrite ?app_nil_r;
      repeat split; auto; intros v Hv; inversion Hv.
  - simpl in Hrun. unfold lift at 1 in Hrun. unfold bind at 1 in Hrun.
    destruct (sys_format (path_template a) (fields_of a v)) as [p|e] eqn:Hfmt.
    2:{ inversion Hrun; subst. repeat split.
        exists [], (v :: vars), [].
        split; [reflexivity|]. split; [intros u Hu; inversion Hu|].
        split; [destruct (verify_first a); simpl; rewrite ?app_nil_r; reflexivity|].
        exists v, vars. split; [reflexivity|]. left. auto. }
    assert (Hp : path_of a v = p) by (unfold path_of, rendered; rewrite Hfmt; reflexivity).
    assert (Hr : rendered a v = Ok (path_of a v)) by (rewrite Hp; exact Hfmt).
    (* the existence check of [v] *)
    assert (Hcheck :
      exists st1, cwd st1 = cwd st /\ stdout st1 = stdout st /\
        ((history st1
          = history st ++ (if verify_first a then [hsi_ok a v] else []) /\
          verify_loop a vars (<[v:=p]> paths) st1 = (r, st'))
         \/ (verify_first a = true /\ st1 = st' /\ exists res,
               history st1 = history st ++ [Invoked (hsi_argv p) res] /\
               res <> Exited 0 /\
               r = Raise (RuntimeError (msg_verify_failed p))))).
    { apply bind_inv in Hrun as [(u & st1 & Hchk & Hrest)|(e & Hchk & ->)].
      - exists st1. destruct (verify_first a).
        + unfold try_except in Hchk.
          destruct (subprocess_run (hsi_argv p) st) as [[[]|e] st2] eqn:Hsub;
            [|discriminate].
          assert (st2 = st1) by congruence; subst st2.
          apply subprocess_run_inv in Hsub
            as (res & Hc & Ho & Hh & [[-> _]|[_ Hbad]]); [|discriminate].
          split; [exact Hc|]. split; [exact Ho|]. left.
          split; [|exact Hrest]. unfold hsi_ok. rewrite Hp. exact Hh.
        + assert (st1 = st) by (unfold ret in Hchk; congruence); subst st1.
          split; [reflexivity|]. split; [reflexivity|]. left.
          split; [|exact Hrest]. rewrite app_nil_r. reflexivity.
      - exists st'. destruct (verify_first a); [|discriminate].
        unfold try_except in Hchk.
        destruct (subprocess_run (hsi_argv p) st) as [[[]|e0] st2] eqn:Hsub;
          [discriminate|].
        unfold raise in Hchk.
        assert (st2 = st') by congruence; subst st2.
        assert (e = RuntimeError (msg_verify_failed p)) by congruence; subst e.
        apply subprocess_run_inv in Hsub
          as (res & Hc & Ho & Hh & [[_ Hok]|[Hbad _]]); [discriminate|].
        split; [exact Hc|]. split; [exact Ho|]. right.
        split; [reflexivity|]. split; [reflexivity|].
        exists res. split; [exact Hh|]. split; [exact Hbad|reflexivity]. }
    destruct Hcheck as (st1 & Hc1 & Ho1 & [[Hh1 Hrest]|(Hvf & -> & res & Hh1 & Hbad & ->)]).
    + apply IH in Hrest as (Hc & Ho & done & post & tail & Hvars & Hdone & Hh & Hres).
      split; [congruence|]. split; [congruence|].
      exists (v :: done), post, tail. split; [simpl; congruence|].
      split; [|split].
      * intros u Hu. apply elem_of_cons in Hu as [->|Hu]; auto.
      * rewrite Hh, Hh1. destruct (verify_first a); simpl;
          rewrite <- ?app_assoc; reflexivity.
      * destruct r as [paths'|e]; [|exact Hres].
        destruct Hres as (-> & -> & Hin & Hout). repeat split; auto.
        -- intros u Hu. destruct (decide (u ∈ vars)) as [Hu'|Hu'].
           ++ apply Hin, Hu'.
           ++ apply elem_of_cons in Hu as [->|Hu]; [|contradiction].
              rewrite (Hout v Hu'), lookup_insert_eq, Hp. reflexivity.
        -- intros u Hu. apply not_elem_of_cons in Hu as [Hne Hu].
           rewrite (Hout u Hu), lookup_insert_ne; auto.
    + split; [congruence|]. split; [congruence|].
      exists [], (v :: vars), [Invoked (hsi_argv p) res].
      split; [reflexivity|]. split; [intros u Hu; inversion Hu|].
      split; [rewrite Hh1; destruct (verify_first a); reflexivity|].
      exists v, vars. split; [reflexivity|]. right.
      rewrite Hp. repeat split; auto. exists res. auto.
Qed.

Lemma vprint_inv a line (st : state FS) r st' :
  vprint a line st = (r, st') ->
  r = Ok tt /\ cwd st' = cwd st /\ fs st' = fs st /\
  history st' = history st /\
  stdout st' = stdout st ++ (if verbose a then [line] else []).
Proof.
  unfold vprint, print, ret. destruct (verbose a); intros Hr;
    inversion Hr; subst; simpl; rewrite ?app_nil_r; auto.
Qed.

Lemma os_makedirs_inv p (st : state FS) r st' :
  os_makedirs p st = (r, st') ->
  cwd st' = cwd st /\ history st' = history st /\ stdout st' = stdout st.
Proof.
  unfold os_makedirs. destruct (sys_makedirs (fs st) (cwd st) p) as [r0 fs'].
  intros Hr; inversion Hr; subst; simpl; auto.
Qed.

Lemma os_chdir_inv p (st : state FS) r st' :
  os_chdir p st = (r, st') ->
  history st' = history st /\ stdout st' = stdout st /\ fs st' = fs st /\
  ((r = Ok tt /\ sys_chdir (fs st) (cwd st) p = Ok (cwd st'))
   \/ (exists e, r = Raise e /\ st' = st)).
Proof.
  unfold os_chdir. destruct (sys_chdir (fs st) (cwd st) p) as [q|e] eqn:Hcd;
    intros Hr; inversion Hr; subst; simpl; repeat split; eauto.
Qed.

(** The command is run on the file system and in the working directory of
    the state. *)
Lemma subprocess_run_ran args (st : state FS) r st' :
  subprocess_run args st = (r, st') ->
  exists res,
    history st' = history st ++ [Invoked args res] /\
    sys_run (fs st) (cwd st) args = (res, fs st').
Proof.
  unfold subprocess_run.
  destruct (sys_run (fs st) (cwd st) args) as [res fs'].
  intros Hr. exists res.
  destruct res as [rc|e]; [destruct (rc =? 0)|]; inversion Hr; subst; auto.
Qed.

(** The clobber check changes nothing but the lines printed, and asks for
    the return exactly when the directory exists and is not empty. *)
Lemma clobber_check_inv a d (st : state FS) r st' :
  clobber_check a d st = (r, st') ->
  cwd st' = cwd st /\ fs st' = fs st /\ history st' = history st /\
  (r = Ok true ->
     clobber a = false /\ sys_isdir (fs st) (cwd st) d = true /\
     exists e es, sys_listdir (fs st) (cwd st) d = Ok (e :: es)).
Proof.
  unfold clobber_check. destruct (clobber a); simpl.
  { intros Hr; inversion Hr; subst. repeat split; auto; discriminate. }
  unfold bind at 1, os_path_isdir at 1.
  destruct (sys_isdir (fs st) (cwd st) d) eqn:Hdir.
  2:{ intros Hr; inversion Hr; subst. repeat split; auto; discriminate. }
  unfold bind at 1, os_listdir at 1.
  destruct (sys_listdir (fs st) (cwd st) d) as [[|e es]|e] eqn:Hls; simpl.
  - intros Hr; inversion Hr; subst. repeat split; auto; discriminate.
  - intros Hr. apply bind_inv in Hr as [(u & st1 & Hp & Hr)|(e0 & Hp & ->)].
    + apply vprint_inv in Hp as (_ & Hc & Hf & Hh & _).
      inversion Hr; subst. repeat split; eauto.
    + apply vprint_inv in Hp as (Hp & _). discriminate.
  - intros Hr; inversion Hr; subst. repeat split; auto; discriminate.
Qed.

(** The clobber check asks for the return when the directory exists and
    has an entry, and overwriting is not allowed. *)
Lemma clobber_check_fires a d (st : state FS) e es :
  clobber a = false ->
  sys_isdir (fs st) (cwd st) d = true ->
  sys_listdir (fs st) (cwd st) d = Ok (e :: es) ->
  clobber_check a d st
  = (Ok true,
     mkState (cwd st) (fs st) (history st)
       (stdout st ++ (if verbose a then [msg_skipping d] else []))).
Proof.
  intros Hc Hd Hl. unfold clobber_check. rewrite Hc. simpl.
  unfold bind at 1, os_path_isdir at 1. rewrite Hd.
  unfold bind at 1, os_listdir at 1. rewrite Hl. simpl.
  unfold bind, vprint, print, ret. destruct (verbose a); simpl.
  - reflexivity.
  - rewrite app_nil_r. destruct st; reflexivity.
Qed.

(** The clobber check raises when [os.listdir] does. *)
Lemma clobber_check_raise a d (st : state FS) e st' :
  clobber_check a d st = (Raise e, st') ->
  st' = st /\ sys_listdir (fs st) (cwd st) d = Raise e.
Proof.
  unfold clobber_check. destruct (clobber a); simpl; [discriminate|].
  unfold bind at 1, os_path_isdir at 1.
  destruct (sys_isdir (fs st) (cwd st) d); [|discriminate].
  unfold bind at 1, os_listdir at 1.
  destruct (sys_listdir (fs st) (cwd st) d) as [[|x l]|e0]; simpl.
  - discriminate.
  - unfold bind, vprint, print, ret. destruct (verbose a); discriminate.
  - intros Hr; inversion Hr; subst; auto.
Qed.

Lemma os_makedirs_raise p (st : state FS) e st' :
  os_makedirs p st = (Raise e, st') ->
  cwd st' = cwd st /\ history st' = history st /\
  sys_makedirs (fs st) (cwd st) p = (Raise e, fs st').
Proof.
  unfold os_makedirs. destruct (sys_makedirs (fs st) (cwd st) p) as [r0 fs'].
  intros Hr; inversion Hr; subst; simpl; auto.
Qed.

Lemma os_chdir_raise p (st : state FS) e st' :
  os_chdir p st = (Raise e, st') ->
  st' = st /\ sys_chdir (fs st) (cwd st) p = Raise e.
Proof.
  unfold os_chdir. destruct (sys_chdir (fs st) (cwd st) p) as [q|e0];
    intros Hr; inversion Hr; subst; auto.
Qed.

(** An exception of the file system: nothing was run in this round. *)
Lemma extract_post_os_error a v vars (st st' : state FS) e :
  history st' = history st ->
  file_system_raised a (v :: vars) st st' e ->
  extract_post a (v :: vars) st (Raise e) st'.
Proof.
  intros Hh Hfs. exists [], (v :: vars), []. simpl. rewrite app_nil_r. auto.
Qed.

Lemma extract_loop_spec a paths vars : forall (st : state FS) r st',
  (forall v, v ∈ vars -> paths !! v = Some (path_of a v)) ->
  extract_loop a vars paths st = (r, st') ->
  extract_post a vars st r st'.
Proof.
  induction vars as [|v vars IH]; intros st r st' Hpaths Hrun.
  - inversion Hrun; subst. exists [], [], []. simpl.
    rewrite app_nil_r. auto.
  - simpl in Hrun. unfold dict_get at 1 in Hrun.
    rewrite (Hpaths v) in Hrun by (apply elem_of_cons; auto).
    unfold bind at 1, ret at 1 in Hrun.
    change (out_dir_of (output_directory a) (institution a) (path_of a v))
      with (dest_of a v) in Hrun.
    apply bind_inv in Hrun as [(skip & st1 & Hchk & Hrun)|(e & Hchk & ->)].
    2:{ apply clobber_check_raise in Hchk as [-> Hls].
        apply extract_post_os_error; [reflexivity|].
        left. exists v. split; [apply elem_of_cons; auto|]. left. exact Hls. }
    apply clobber_check_inv in Hchk as (Hc1 & Hf1 & Hh1 & Hskip).
    destruct skip.
    { (* the early return *)
      inversion Hrun; subst r st1.
      destruct (Hskip eq_refl) as (Hclob & Hdir & e & es & Hls).
      exists [], (v :: vars), []. simpl. rewrite app_nil_r.
      split; [reflexivity|]. split; [exact Hh1|]. split; [reflexivity|].
      split; [intros _; exact Hc1|]. exists v, vars.
      rewrite Hf1, Hc1. eauto 10. }
    clear Hskip.
    apply bind_inv in Hrun as [(u2 & st2 & Hmk & Hrun)|(e & Hmk & ->)].
    2:{ apply os_makedirs_raise in Hmk as (Hc & Hh & Hmk).
        apply extract_post_os_error; [congruence|].
        left. exists v. split; [apply elem_of_cons; auto|]. right. left.
        exists (fs st1). rewrite Hc. exact Hmk. }
    apply os_makedirs_inv in Hmk as (Hc2 & Hh2 & _).
    unfold bind at 1, os_getcwd at 1 in Hrun.
    apply bind_inv in Hrun as [(u3 & st3 & Hcd & Hrun)|(e & Hcd & ->)].
    2:{ apply os_chdir_raise in Hcd as [-> Hcd].
        apply extract_post_os_error; [congruence|].
        left. exists v. split; [apply elem_of_cons; auto|]. right. right.
        exact Hcd. }
    apply os_chdir_inv in Hcd as (Hh3 & _ & Hf3 & [[_ Hc3]|(e & He & _)]);
      [|discriminate].
    apply bind_inv in Hrun as [(u4 & st4 & Hpr & Hrun)|(e & Hpr & ->)].
    2:{ apply vprint_inv in Hpr as (Hpr & _). discriminate. }
    apply vprint_inv in Hpr as (_ & Hc4 & Hf4 & Hh4 & _).
    assert (Hhist : history st4 = history st) by congruence.
    assert (Hcwd : sys_chdir (fs st2) (cwd st) (dest_of a v) = Ok (cwd st4)).
    { rewrite Hc4, <- Hc1, <- Hc2. exact Hc3. }
    assert (Hfs4 : fs st4 = fs st2) by congruence.
    apply bind_inv in Hrun as [(u5 & st5 & Hsub & Hrun)|(e & Hsub & ->)].
    2:{ (* the extraction command failed *)
        pose proof (subprocess_run_ran _ _ _ _ Hsub) as (res' & Hh' & Hran).
        apply subprocess_run_inv in Hsub
          as (res & Hc5 & _ & Hh5 & [[_ Hok]|[Hbad He]]); [discriminate|].
        assert (res' = res).
        { rewrite Hh5 in Hh'. apply app_inv_head in Hh'. congruence. }
        subst res'.
        exists [], (v :: vars),
          [Invoked (htar_argv (htar_threads a) (path_of a v)) res].
        simpl. split; [reflexivity|]. split; [congruence|]. right.
        exists v, vars, res.
        split; [reflexivity|]. split; [reflexivity|]. split; [exact Hbad|].
        split; [congruence|]. intros _. exists (fs st2).
        rewrite Hc5. split; [exact Hcwd|]. rewrite <- Hfs4. exact Hran. }
    apply subprocess_run_inv in Hsub
      as (res & Hc5 & _ & Hh5 & [[-> _]|[_ Hbad]]); [|discriminate].
    apply bind_inv in Hrun as [(u6 & st6 & Hcd & Hrun)|(e & Hcd & ->)].
    2:{ (* the way back failed *)
        apply os_chdir_raise in Hcd as [-> Hcd].
        exists [v], vars, []. simpl. split; [reflexivity|].
        split; [unfold htar_ok; congruence|]. left. split; [reflexivity|].
        right. exists (cwd st2). split; [intros _; congruence|exact Hcd]. }
    apply os_chdir_inv in Hcd as (Hh6 & _ & _ & [[_ Hc6]|(e & He & _)]);
      [|discriminate].
    rewrite Hc2, Hc1 in Hc6.
    assert (Hback : PosixPath.isabs (cwd st) = true -> cwd st6 = cwd st).
    { intros Habs.
      exact (sys_chdir_back _ _ _ _ _ _ Habs Hcwd
               (eq_ind _ (fun c => sys_chdir (fs st5) c (cwd st) = Ok (cwd st6))
                  Hc6 _ Hc5)). }
    apply IH in Hrun as (done & post & tail & Hvars & Hh & Hres).
    2:{ intros u Hu. apply Hpaths. apply elem_of_cons; auto. }
    exists (v :: done), post, tail. split; [simpl; congruence|].
    split.
    { rewrite Hh, Hh6, Hh5, Hhist. simpl. rewrite <- app_assoc.
      reflexivity. }
    destruct r as [[|]|e].
    + destruct Hres as (Hpost & Htail & Hc). repeat split; auto.
      intros Habs. rewrite <- (Hback Habs). apply Hc.
      rewrite (Hback Habs). exact Habs.
    + destruct Hres as (Htail & Hc & Hret). repeat split; auto.
      intros Habs. rewrite <- (Hback Habs). apply Hc.
      rewrite (Hback Habs). exact Habs.
    + destruct Hres as [[Htail Hfs]
                       |(u & post' & res & Hpost & Htail & Hbad & He & Hc)];
        [left|right].
      { split; [exact Htail|].
        destruct Hfs as [(u & Hu & Hfs)|(back & Hb & Hfs)].
        - left. exists u. split; [apply elem_of_cons; auto|exact Hfs].
        - right. exists back. split; [|exact Hfs].
          intros Habs. rewrite <- (Hback Habs). apply Hb.
          rewrite (Hback Habs). exact Habs. }
      exists u, post', res. repeat split; auto.
      intros Habs. unfold ran_in_destination in *.
      rewrite <- (Hback Habs). apply Hc.
      rewrite (Hback Habs). exact Habs.
Qed.

(** Lines 86-109 are the first loop, run from the state [st0] reached
    after the first message. *)
Lemma build_htar_paths_inv a (st : state FS) r1 st1 :
  build_htar_paths a st = (r1, st1) ->
  exists st0,
    cwd st0 = cwd st /\ history st0 = history st /\
    verify_post a (variables_of a) ∅ st0 r1 st1.
Proof.
  unfold build_htar_paths. intros Hb.
  apply bind_inv in Hb as [(u & st0 & Hpre & Hloop)|(e & Hpre & _)].
  - exists st0. destruct (verify_first a).
    + apply vprint_inv in Hpre as (_ & Hc & _ & Hh & _).
      split; [exact Hc|]. split; [exact Hh|].
      apply verify_loop_spec, Hloop.
    + inversion Hpre; subst st0.
      split; [reflexivity|]. split; [reflexivity|].
      apply verify_loop_spec, Hloop.
  - destruct (verify_first a).
    + apply vprint_inv in Hpre as (Hpre & _). discriminate.
    + discriminate.
Qed.

(** The paths of all the variables are in the dictionary the first loop
    returns. *)
Lemma build_htar_paths_complete a (st : state FS) paths st1 :
  build_htar_paths a st = (Ok paths, st1) ->
  (forall v, v ∈ variables_of a -> paths !! v = Some (path_of a v)) /\
  cwd st1 = cwd st /\
  history st1 = history st ++ checks a (variables_of a).
Proof.
  intros Hb. apply build_htar_paths_inv in Hb
    as (st0 & Hc0 & Hh0 & Hc1 & _ & done & post & tail & Hvars & _ & Hh1
        & -> & -> & Hin & _).
  rewrite app_nil_r in Hvars, Hh1. subst done.
  split; [exact Hin|]. unfold checks. split; congruence.
Qed.

(** The whole run: the first loop, then the second loop. *)
Lemma run_inv a (st : state FS) r st' :
  extract_c20c_data a st = (r, st') ->
  exists st0 r1 st1,
    cwd st0 = cwd st /\ history st0 = history st /\
    build_htar_paths a st = (r1, st1) /\
    verify_post a (variables_of a) ∅ st0 r1 st1 /\
    match r1 with
    | Raise e => r = Raise e /\ st' = st1
    | Ok paths =>
        exists r2,
          extract_loop a (variables_of a) paths st1 = (r2, st') /\
          extract_post a (variables_of a) st1 r2 st' /\
          r = match r2 with Ok _ => Ok tt | Raise e => Raise e end
    end.
Proof.
  intros Hrun. unfold extract_c20c_data in Hrun.
  destruct (build_htar_paths a st) as [r1 st1] eqn:Hb.
  destruct (build_htar_paths_inv _ _ _ _ Hb) as (st0 & Hc0 & Hh0 & Hv).
  exists st0, r1, st1. split; [exact Hc0|]. split; [exact Hh0|].
  split; [reflexivity|]. split; [exact Hv|].
  unfold bind at 1 in Hrun. rewrite Hb in Hrun.
  destruct r1 as [paths|e].
  - destruct (extract_loop a (variables_of a) paths st1) as [r2 st2] eqn:Hx.
    assert (st2 = st' /\ r = match r2 with Ok _ => Ok tt | Raise e => Raise e end)
      as [-> ->].
    { unfold bind in Hrun. rewrite Hx in Hrun.
      destruct r2; inversion Hrun; subst; auto. }
    exists r2. split; [reflexivity|]. split; [|reflexivity].
    apply (extract_loop_spec a paths); [|exact Hx].
    apply (build_htar_paths_complete _ _ _ _ Hb).
  - inversion Hrun; subst. auto.
Qed.

Lemma bind_assoc {A B C} (m : M FS A) (k : A -> M FS B) (h : B -> M FS C) st :
  bind (bind m k) h st = bind m (fun x => bind (k x) h) st.
Proof. unfold bind. destruct (m st) as [[x|e] st1]; reflexivity. Qed.

Lemma bind_ext {A B} (m : M FS A) (k k' : A -> M FS B) st :
  (forall x st1, k x st1 = k' x st1) -> bind m k st = bind m k' st.
Proof.
  intros Hk. unfold bind. destruct (m st) as [[x|e] st1]; auto.
Qed.

(** The second loop over a list in two parts. *)
Lemma extract_loop_app a paths l1 l2 : forall (st : state FS),
  extract_loop a (l1 ++ l2) paths st
  = bind (extract_loop a l1 paths) (and_then a paths l2) st.
Proof.
  induction l1 as [|v l1 IH]; intros st; [reflexivity|].
  simpl. rewrite bind_assoc. apply bind_ext. intros p st0.
  rewrite bind_assoc. apply bind_ext. intros [|] st1; [reflexivity|].
  repeat (rewrite bind_assoc; apply bind_ext; intros ? ?).
  apply IH.
Qed.

Lemma new_events_app (st st' : state FS) l :
  history st' = history st ++ l -> new_events st st' = l.
Proof. intros Hh. unfold new_events. rewrite Hh. apply drop_app_length. Qed.

(** Every run ends in one of the six ways. *)
Lemma run_ending a (st : state FS) r st' :
  extract_c20c_data a st = (r, st') -> ending a st r st'.
Proof.
  intros Hrun. apply run_inv in Hrun
    as (st0 & r1 & st1 & Hc0 & Hh0 & _ & Hv & Hrest).
  destruct Hv as (Hc1 & _ & done & post & tail & Hvars & Hdone & Hh1 & Hr1).
  rewrite Hh0 in Hh1. rewrite Hc0 in Hc1.
  destruct r1 as [paths|e].
  - destruct Hr1 as (-> & -> & _ & _). rewrite app_nil_r in Hvars, Hh1.
    subst done. fold (checks a (variables_of a)) in Hh1.
    destruct Hrest as (r2 & _ & Hx & ->).
    destruct Hx as (done & post & tail & Hvars & Hh2 & Hr2).
    rewrite Hh1, <- app_assoc in Hh2. apply new_events_app in Hh2.
    rewrite Hc1 in Hr2.
    destruct r2 as [[|]|e].
    + destruct Hr2 as (-> & -> & Hc). rewrite app_nil_r in Hvars, Hh2.
      subst done. apply Completed; auto.
    + destruct Hr2 as (-> & Hc & v & post' & -> & Hclob & Hdir & en & ens & Hls).
      rewrite app_nil_r in Hh2.
      eapply (Skipped _ _ _ _ done v post'); eauto.
    + destruct Hr2 as [[-> Hfs]|(v & post' & res & -> & -> & Hbad & -> & Hc)].
      * rewrite app_nil_r in Hh2.
        eapply (SystemFailed _ _ _ _ done post); eauto.
        unfold file_system_raised in *. rewrite <- Hc1. exact Hfs.
      * eapply (ExtractionFailed _ _ _ _ done v post'); eauto.
        intros Habs. unfold ran_in_destination in *. rewrite <- Hc1.
        apply Hc, Habs.
  - destruct Hrest as [-> ->].
    destruct Hr1 as (v & post' & -> &
      [[-> Hfail]|(Hvf & Hok & res & -> & Hbad & ->)]).
    + rewrite app_nil_r in Hh1. apply new_events_app in Hh1.
      eapply (TemplateFailed _ _ _ _ done v post'); eauto.
    + rewrite Hvf in Hh1. apply new_events_app in Hh1.
      eapply (VerificationFailed _ _ _ _ done v post'); eauto.
      intros u Hu. apply elem_of_app in Hu as [Hu|Hu]; [auto|].
      apply list_elem_of_singleton in Hu. subst u. exact Hok.
Qed.

(** *** The history records what the commands answered *)

Lemma faithful_refl (st : state FS) : faithful st st.
Proof. exists []. rewrite app_nil_r. auto. Qed.

Lemma faithful_same_history (st0 st st' : state FS) :
  history st' = history st -> faithful st0 st -> faithful st0 st'.
Proof. intros Hh (new & Hnew & Hrec). exists new. split; congruence. Qed.

Lemma keeps_record_bind {A B} (m : M FS A) (k : A -> M FS B) :
  keeps_record m -> (forall x, keeps_record (k x)) -> keeps_record (bind m k).
Proof.
  intros Hm Hk st0 st r st' Hf Hrun.
  apply bind_inv in Hrun as [(x & st1 & Hm1 & Hk1)|(e & Hm1 & _)].
  - eapply Hk; [|exact Hk1]. eapply Hm; eauto.
  - eapply Hm; eauto.
Qed.

Lemma keeps_record_quiet {A} (m : M FS A) :
  (forall st r st', m st = (r, st') -> history st' = history st) ->
  keeps_record m.
Proof.
  intros Hq st0 st r st' Hf Hrun.
  eapply faithful_same_history; [|exact Hf]. eapply Hq, Hrun.
Qed.

Lemma keeps_record_ret {A} (x : A) : keeps_record (ret (FS := FS) x).
Proof. apply keeps_record_quiet. intros st r st' Hr. inversion Hr; auto. Qed.

Lemma keeps_record_vprint a line : keeps_record (vprint (FS := FS) a line).
Proof.
  apply keeps_record_quiet. intros st r st' Hr.
  apply vprint_inv in Hr. tauto.
Qed.

Lemma keeps_record_subprocess_run args : keeps_record (subprocess_run args).
Proof.
  intros st0 st r st' (new & Hnew & Hrec) Hrun.
  assert (Hev : exists res, history st' = history st ++ [Invoked args res] /\
                  recorded (Invoked args res)).
  { unfold subprocess_run in Hrun.
    destruct (sys_run (fs st) (cwd st) args) as [res fs'] eqn:Hsys.
    exists res. split.
    - destruct res as [rc|e]; [destruct (rc =? 0)|]; inversion Hrun; reflexivity.
    - exists (fs st), (cwd st). simpl. rewrite Hsys. reflexivity. }
  destruct Hev as (res & Hh & Hres).
  exists (new ++ [Invoked args res]). split.
  - rewrite Hh, Hnew, app_assoc. reflexivity.
  - apply Forall_app. split; [exact Hrec|]. constructor; [exact Hres|constructor].
Qed.

Lemma keeps_record_verify_loop a vars : forall paths,
  keeps_record (verify_loop a vars paths).
Proof.
  induction vars as [|v vars IH]; intros paths; [apply keeps_record_ret|].
  simpl. apply keeps_record_bind.
  { apply keeps_record_quiet. intros st r st' Hr. inversion Hr; auto. }
  intros p. apply keeps_record_bind; [|intros _; apply IH].
  destruct (verify_first a); [|apply keeps_record_ret].
  intros st0 st r st' Hf Hrun. unfold try_except in Hrun.
  destruct (subprocess_run (hsi_argv p) st) as [[u|e] st1] eqn:Hsub.
  - inversion Hrun; subst. eapply keeps_record_subprocess_run; eauto.
  - inversion Hrun; subst. eapply keeps_record_subprocess_run; eauto.
Qed.

Lemma keeps_record_clobber_check a d : keeps_record (clobber_check a d).
Proof.
  apply keeps_record_quiet. intros st r st' Hr.
  apply clobber_check_inv in Hr. tauto.
Qed.

Lemma keeps_record_extract_loop a paths vars :
  keeps_record (extract_loop a vars paths).
Proof.
  induction vars as [|v vars IH]; [apply keeps_record_ret|].
  simpl. apply keeps_record_bind.
  { unfold dict_get. destruct (paths !! v); [apply keeps_record_ret|].
    apply keeps_record_quiet. intros st r st' Hr. inversion Hr; auto. }
  intros p. apply keeps_record_bind; [apply keeps_record_clobber_check|].
  intros [|]; [apply keeps_record_ret|].
  apply keeps_record_bind.
  { apply keeps_record_quiet. intros st r st' Hr.
    apply os_makedirs_inv in Hr. tauto. }
  intros _. apply keeps_record_bind.
  { apply keeps_record_quiet. intros st r st' Hr. inversion Hr; auto. }
  intros c. apply keeps_record_bind.
  { apply keeps_record_quiet. intros st r st' Hr.
    apply os_chdir_inv in Hr. tauto. }
  intros _. apply keeps_record_bind; [apply keeps_record_vprint|].
  intros _. apply keeps_record_bind; [apply keeps_record_subprocess_run|].
  intros _. apply keeps_record_bind; [|intros _; exact IH].
  apply keeps_record_quiet. intros st r st' Hr.
  apply os_chdir_inv in Hr. tauto.
Qed.

(** Every command in the history of a run ended the way the history says,
    in some state of the file system. *)
Lemma run_keeps_record a (st : state FS) r st' :
  extract_c20c_data a st = (r, st') ->
  Forall recorded (new_events st st').
Proof.
  intros Hrun.
  assert (Hk : keeps_record (extract_c20c_data a)).
  { unfold extract_c20c_data, build_htar_paths.
    apply keeps_record_bind.
    - apply keeps_record_bind; [|intros _; apply keeps_record_verify_loop].
      destruct (verify_first a);
        [apply keeps_record_vprint|apply keeps_record_ret].
    - intros paths. apply keeps_record_bind;
        [apply keeps_record_extract_loop|intros _; apply keeps_record_ret]. }
  destruct (Hk st st r st' (faithful_refl st) Hrun) as (new & Hnew & Hrec).
  rewrite (new_events_app _ _ _ Hnew). exact Hrec.
Qed.

End Steps.

(** ** What the history of a run is made of *)

Section Histories.

Context {FS : Type} {Sys : System FS}.

Lemma invocations_app prog l1 l2 :
  invocations prog (l1 ++ l2) = invocations prog l1 ++ invocations prog l2.
Proof. apply List.filter_app. Qed.

Lemma invocations_htar_checks a l : invocations "htar" (checks a l) = [].
Proof.
  unfold checks. destruct (verify_first a); [|reflexivity].
  induction l as [|v l IH]; [reflexivity|exact IH].
Qed.

Lemma invocations_htar_hsi_ok a l : invocations "htar" (map (hsi_ok a) l) = [].
Proof. induction l as [|v l IH]; [reflexivity|exact IH]. Qed.

Lemma invocations_htar_htar_ok a l :
  invocations "htar" (map (htar_ok a) l) = map (htar_ok a) l.
Proof.
  induction l as [|v l IH]; [reflexivity|].
  change (htar_ok a v :: invocations "htar" (map (htar_ok a) l)
          = htar_ok a v :: map (htar_ok a) l).
  rewrite IH. reflexivity.
Qed.

(** A check in the history is a successful run of [hsi]. *)
Lemma elem_of_hsi_ok a l ev :
  ev ∈ map (hsi_ok a) l ->
  succeeded ev = true /\ is_hsi ev = true /\ is_htar ev = false.
Proof.
  intros Hev. apply list_elem_of_fmap in Hev as (v & -> & _). auto.
Qed.

Lemma elem_of_checks a l ev :
  ev ∈ checks a l ->
  succeeded ev = true /\ is_hsi ev = true /\ is_htar ev = false.
Proof.
  unfold checks. destruct (verify_first a).
  - apply elem_of_hsi_ok.
  - intros Hev. inversion Hev.
Qed.

(** An extraction in the history is a successful run of [htar]. *)
Lemma elem_of_htar_ok a l ev :
  ev ∈ map (htar_ok a) l ->
  succeeded ev = true /\ is_htar ev = true /\ is_hsi ev = false.
Proof.
  intros Hev. apply list_elem_of_fmap in Hev as (v & -> & _). auto.
Qed.

Lemma succeeded_false_iff ev : succeeded ev = false <-> ended ev <> Exited 0.
Proof.
  unfold succeeded. destruct (ended ev) as [rc|e].
  - destruct (Z.eqb_spec rc 0) as [->|Hrc]; split; congruence.
  - split; [discriminate|reflexivity].
Qed.

Lemma argv_checks a l :
  map argv (map (hsi_ok a) l) = map (fun u => hsi_argv (path_of a u)) l.
Proof. rewrite map_map. reflexivity. Qed.

(** A part of the list whose variables all have a property ends before
    the first variable that does not have it. *)
Lemma prefix_before_failure (P : string -> Prop) l1 r1 pre v post :
  l1 ++ r1 = pre ++ v :: post ->
  (forall u, u ∈ l1 -> P u) ->
  ~ P v ->
  l1 `prefix_of` pre.
Proof.
  intros Heq Hall Hv.
  apply app_eq_inv in Heq as [(k & -> & Hk)|(k & -> & _)].
  - destruct k as [|x k].
    + rewrite app_nil_r. reflexivity.
    + exfalso. apply Hv, Hall. inversion Hk; subst x. set_solver.
  - exists k. reflexivity.
Qed.

End Histories.

(** ** The claims about the run *)

Section Run.

Context {FS : Type} {Sys : System FS}.

Ltac contra_ok H :=
  first [ apply elem_of_checks in H | apply elem_of_hsi_ok in H
        | apply elem_of_htar_ok in H ];
  destruct H as (? & ? & ?); congruence.

(** C1.  With verification enabled, when an existence check of the run
    fails, the run raises the [RuntimeError] that names the path that was
    checked, that check is the last command run, after the successful
    checks of the variables before it, and no extraction command has been
    run for any variable.  And an existence check of the run does fail
    when the check of the path of some variable of the list fails in every
    state of the file system (the paths of all the variables being
    rendered). *)
Theorem verification_failure_aborts a (st : state FS) r st' :
  verify_first a = true ->
  extract_c20c_data a st = (r, st') ->
  (forall ev,
     ev ∈ new_events st st' -> is_hsi ev = true -> succeeded ev = false ->
     exists pre v post,
       variables_of a = pre ++ v :: post /\
       all_rendered a (pre ++ [v]) /\
       argv ev = hsi_argv (path_of a v) /\
       r = Raise (RuntimeError (msg_verify_failed (path_of a v))) /\
       new_events st st' = map (hsi_ok a) pre ++ [ev] /\
       invocations "htar" (new_events st st') = []) /\
  (forall v,
     v ∈ variables_of a ->
     all_rendered a (variables_of a) ->
     (forall fs0 c, fst (sys_run fs0 c (hsi_argv (path_of a v))) <> Exited 0) ->
     exists ev,
       ev ∈ new_events st st' /\ is_hsi ev = true /\ succeeded ev = false).
Proof.
  intros Hvf Hrun. pose proof (run_keeps_record _ _ _ _ Hrun) as Hrec.
  apply run_ending in Hrun. split.
  - intros ev Hev Hhsi Hfail.
    destruct Hrun as [pre v post e Hvars Hpre Hv Hr Hnew Hc
                     |pre v post res _ Hvars Hpre Hbad Hr Hnew Hc
                     |Hall Hr Hnew Hc
                     |pre v post en ens Hclob Hvars Hall Hdir Hls Hr Hnew Hc
                     |pre v post res Hvars Hall Hbad Hr Hnew Hc
                     |pre post e Hvars Hall Hr Hnew];
      rewrite Hnew in Hev.
    + contra_ok Hev.
    + apply elem_of_app in Hev as [Hev|Hev]; [contra_ok Hev|].
      apply list_elem_of_singleton in Hev. subst ev.
      exists pre, v, post.
      rewrite Hnew, invocations_app, invocations_htar_hsi_ok.
      repeat split; auto.
    + apply elem_of_app in Hev as [Hev|Hev]; contra_ok Hev.
    + apply elem_of_app in Hev as [Hev|Hev]; contra_ok Hev.
    + apply elem_of_app in Hev as [Hev|Hev]; [contra_ok Hev|].
      apply elem_of_app in Hev as [Hev|Hev]; [contra_ok Hev|].
      apply list_elem_of_singleton in Hev. subst ev. discriminate.
    + apply elem_of_app in Hev as [Hev|Hev]; contra_ok Hev.
  - intros v Hv Hall Hfails.
    assert (Hchecked : hsi_ok a v ∈ new_events st st' -> False).
    { intros Hin. rewrite Forall_forall in Hrec.
      destruct (Hrec _ Hin) as (fs0 & c & Hans). exact (Hfails fs0 c Hans). }
    assert (Hin : hsi_ok a v ∈ checks a (variables_of a)).
    { unfold checks. rewrite Hvf. apply list_elem_of_fmap. eauto. }
    destruct Hrun as [pre v' post e Hvars Hpre Hv' Hr Hnew Hc
                     |pre v' post res _ Hvars Hpre Hbad Hr Hnew Hc
                     |_ Hr Hnew Hc
                     |pre v' post en ens Hclob Hvars _ Hdir Hls Hr Hnew Hc
                     |pre v' post res Hvars _ Hbad Hr Hnew Hc
                     |pre post e Hvars _ Hr Hnew].
    + rewrite (Hall v') in Hv' by (rewrite Hvars; set_solver). discriminate.
    + exists (Invoked (hsi_argv (path_of a v')) res). rewrite Hnew.
      split; [set_solver|]. split; [reflexivity|].
      apply succeeded_false_iff. exact Hbad.
    + destruct Hchecked. rewrite Hnew. set_solver.
    + destruct Hchecked. rewrite Hnew. set_solver.
    + destruct Hchecked. rewrite Hnew. set_solver.
    + destruct Hchecked. rewrite Hnew. set_solver.
Qed.

(** C5.  When the extraction command of the run exits with a return code
    other than zero, the run raises the [CalledProcessError] with that
    code and command, for a variable [v] of the list; that command is the
    last one run, and the extraction commands run are those of the
    variables before [v] and this one: none for a variable after [v]. *)
Theorem extraction_failure_aborts a (st : state FS) r st' ev rc :
  extract_c20c_data a st = (r, st') ->
  ev ∈ new_events st st' ->
  is_htar ev = true ->
  ended ev = Exited rc ->
  rc <> 0 ->
  exists pre v post,
    variables_of a = pre ++ v :: post /\
    ev = Invoked (htar_argv (htar_threads a) (path_of a v)) (Exited rc) /\
    r = Raise (CalledProcessError rc (htar_argv (htar_threads a) (path_of a v))) /\
    new_events st st'
    = checks a (variables_of a) ++ map (htar_ok a) pre ++ [ev] /\
    invocations "htar" (new_events st st') = map (htar_ok a) pre ++ [ev].
Proof.
  intros Hrun Hev Hhtar Hend Hrc.
  assert (Hfail : succeeded ev = false).
  { apply succeeded_false_iff. rewrite Hend. congruence. }
  apply run_ending in Hrun.
  destruct Hrun as [pre v post e Hvars Hpre Hv Hr Hnew Hc
                   |pre v post res _ Hvars Hpre Hbad Hr Hnew Hc
                   |Hall Hr Hnew Hc
                   |pre v post en ens Hclob Hvars Hall Hdir Hls Hr Hnew Hc
                   |pre v post res Hvars Hall Hbad Hr Hnew Hc
                   |pre post e Hvars Hall Hr Hnew];
    rewrite Hnew in Hev.
  - contra_ok Hev.
  - apply elem_of_app in Hev as [Hev|Hev]; [contra_ok Hev|].
    apply list_elem_of_singleton in Hev. subst ev. discriminate.
  - apply elem_of_app in Hev as [Hev|Hev]; contra_ok Hev.
  - apply elem_of_app in Hev as [Hev|Hev]; contra_ok Hev.
  - apply elem_of_app in Hev as [Hev|Hev]; [contra_ok Hev|].
    apply elem_of_app in Hev as [Hev|Hev]; [contra_ok Hev|].
    apply list_elem_of_singleton in Hev. subst ev. simpl in Hend. subst res.
    exists pre, v, post. rewrite Hnew.
    rewrite !invocations_app, invocations_htar_checks, invocations_htar_htar_ok.
    repeat split; auto.
  - apply elem_of_app in Hev as [Hev|Hev]; contra_ok Hev.
Qed.

(** A run that returns has gone back to where it started. *)
Lemma run_returns_home a (st : state FS) st' :
  PosixPath.isabs (cwd st) = true ->
  extract_c20c_data a st = (Ok tt, st') ->
  cwd st' = cwd st.
Proof.
  intros Habs Hrun. apply run_ending in Hrun.
  destruct Hrun as [pre v post e Hvars Hpre Hv Hr Hnew Hc
                   |pre v post res _ Hvars Hpre Hbad Hr Hnew Hc
                   |Hall Hr Hnew Hc
                   |pre v post en ens Hclob Hvars Hall Hdir Hls Hr Hnew Hc
                   |pre v post res Hvars Hall Hbad Hr Hnew Hc
                   |pre post e Hvars Hall Hr Hnew];
    try discriminate; auto.
Qed.

(** C6.  After a run that returns, the working directory is the one the
    run started in. *)
Theorem working_directory_restored a (st : state FS) st' :
  PosixPath.isabs (cwd st) = true ->
  extract_c20c_data a st = (Ok tt, st') ->
  cwd st' = cwd st.
Proof. apply run_returns_home. Qed.

(** C9.  The working directory is restored on the success path only: a
    run that returns ends in the directory it started in, and a run whose
    extraction command fails for a variable ends with the exception of
    that command, in the destination directory of that variable: the
    directory that [os.chdir] reached for the destination from the
    directory the run started in, where the failed command was run. *)
Theorem working_directory_after_failure a (st : state FS) r st' :
  PosixPath.isabs (cwd st) = true ->
  extract_c20c_data a st = (r, st') ->
  (r = Ok tt -> cwd st' = cwd st) /\
  (forall ev, ev ∈ new_events st st' -> is_htar ev = true ->
     succeeded ev = false ->
     exists pre v post fs0,
       variables_of a = pre ++ v :: post /\
       argv ev = htar_argv (htar_threads a) (path_of a v) /\
       r = Raise (exn_of_run (argv ev) (ended ev)) /\
       sys_chdir fs0 (cwd st) (dest_of a v) = Ok (cwd st') /\
       sys_run fs0 (cwd st') (argv ev) = (ended ev, fs st')).
Proof.
  intros Habs Hrun. split.
  { intros ->. apply (run_returns_home a st st' Habs Hrun). }
  intros ev Hev Hhtar Hfail. apply run_ending in Hrun.
  destruct Hrun as [pre v post e Hvars Hpre Hv Hr Hnew Hc
                   |pre v post res _ Hvars Hpre Hbad Hr Hnew Hc
                   |Hall Hr Hnew Hc
                   |pre v post en ens Hclob Hvars Hall Hdir Hls Hr Hnew Hc
                   |pre v post res Hvars Hall Hbad Hr Hnew Hc
                   |pre post e Hvars Hall Hr Hnew];
    rewrite Hnew in Hev.
  - contra_ok Hev.
  - apply elem_of_app in Hev as [Hev|Hev]; [contra_ok Hev|].
    apply list_elem_of_singleton in Hev. subst ev. discriminate.
  - apply elem_of_app in Hev as [Hev|Hev]; contra_ok Hev.
  - apply elem_of_app in Hev as [Hev|Hev]; contra_ok Hev.
  - apply elem_of_app in Hev as [Hev|Hev]; [contra_ok Hev|].
    apply elem_of_app in Hev as [Hev|Hev]; [contra_ok Hev|].
    apply list_elem_of_singleton in Hev. subst ev.
    destruct (Hc Habs) as (fs0 & Hcd & Hran).
    exists pre, v, post, fs0. repeat split; auto.
  - apply elem_of_app in Hev as [Hev|Hev]; contra_ok Hev.
Qed.

(** C2.  With overwriting not allowed, when the second loop reaches a
    variable [v] whose destination directory exists and has an entry, the
    run returns at once: nothing but the message is added to the state in
    which [v] was reached, and the extraction commands of the run are
    those of the variables before [v], none for [v] or a later variable. *)
Theorem clobber_skip_returns a (st st1 st2 : state FS) paths pre v post
    entry entries :
  clobber a = false ->
  variables_of a = pre ++ v :: post ->
  build_htar_paths a st = (Ok paths, st1) ->
  extract_loop a pre paths st1 = (Ok Next, st2) ->
  sys_isdir (fs st2) (cwd st2) (dest_of a v) = true ->
  sys_listdir (fs st2) (cwd st2) (dest_of a v) = Ok (entry :: entries) ->
  let st' :=
    mkState (cwd st2) (fs st2) (history st2)
      (stdout st2 ++ (if verbose a then [msg_skipping (dest_of a v)] else []))
  in
  extract_c20c_data a st = (Ok tt, st') /\
  new_events st st' = checks a (variables_of a) ++ map (htar_ok a) pre /\
  invocations "htar" (new_events st st') = map (htar_ok a) pre.
Proof.
  intros Hclob Hvars Hb Hpre Hdir Hls st'.
  destruct (build_htar_paths_complete _ _ _ _ Hb) as (Hin & Hc1 & Hh1).
  assert (Hrun : extract_c20c_data a st = (Ok tt, st')).
  { unfold extract_c20c_data. rewrite (bind_ok _ _ _ _ _ Hb).
    rewrite Hvars. unfold bind at 1. rewrite extract_loop_app.
    rewrite (bind_ok _ _ _ _ _ Hpre). simpl.
    unfold dict_get at 1. rewrite (Hin v) by (rewrite Hvars; set_solver).
    unfold bind at 1, ret at 1.
    change (out_dir_of (output_directory a) (institution a) (path_of a v))
      with (dest_of a v).
    rewrite (bind_ok _ _ _ _ _ (clobber_check_fires a _ st2 _ _ Hclob Hdir Hls)).
    reflexivity. }
  split; [exact Hrun|].
  assert (Hnew : new_events st st'
                 = checks a (variables_of a) ++ map (htar_ok a) pre).
  { apply new_events_app. simpl.
    apply extract_loop_spec in Hpre
      as (done & post0 & tail & Hsplit & Hh2 & -> & -> & _).
    - rewrite !app_nil_r in *. subst done.
      rewrite Hh2, Hh1, app_assoc. reflexivity.
    - intros u Hu. apply Hin. rewrite Hvars. set_solver. }
  split; [exact Hnew|].
  rewrite Hnew, invocations_app, invocations_htar_checks,
    invocations_htar_htar_ok. reflexivity.
Qed.

(** C7, amended.  When the path of a variable [v] of the list cannot be
    rendered, the run raises; no extraction command has been run, and the
    commands run are existence checks of variables that come before [v]
    in the list (none when verification is disabled).  When [v] is the
    first variable, the run raises the rendering error before any command
    is run. *)
Theorem template_failure_runs_no_extraction a (st : state FS) r st'
    pre v post e :
  extract_c20c_data a st = (r, st') ->
  variables_of a = pre ++ v :: post ->
  rendered a v = Raise e ->
  (exists e' checked,
     r = Raise e' /\
     checked `prefix_of` pre /\
     map argv (new_events st st')
     = map (fun u => hsi_argv (path_of a u)) checked /\
     (verify_first a = false -> checked = [])) /\
  invocations "htar" (new_events st st') = [] /\
  (pre = [] -> r = Raise e /\ new_events st st' = []).
Proof.
  intros Hrun Hsplit Hbad.
  assert (Hnot : ~ rendered a v = Ok (path_of a v)) by congruence.
  assert (Hv : v ∈ variables_of a) by (rewrite Hsplit; set_solver).
  apply run_ending in Hrun.
  destruct Hrun as [pre' v' post' e' Hvars Hpre Hv' Hr Hnew Hc
                   |pre' v' post' res Hvf Hvars Hpre Hres Hr Hnew Hc
                   |Hall Hr Hnew Hc
                   |pre' v' post' en ens Hclob Hvars Hall Hdir Hls Hr Hnew Hc
                   |pre' v' post' res Hvars Hall Hres Hr Hnew Hc
                   |pre' post' e' Hvars Hall Hr Hnew];
    try (exfalso; apply Hnot, Hall, Hv).
  - (* an earlier or the same rendering failed *)
    rewrite Hsplit in Hvars. symmetry in Hvars.
    pose proof (prefix_before_failure _ _ _ _ _ _ Hvars Hpre Hnot) as Hpf.
    rewrite Hnew. split; [|split].
    + exists e', (if verify_first a then pre' else []).
      unfold checks. destruct (verify_first a).
      * rewrite argv_checks. repeat split; auto. discriminate.
      * repeat split; auto. apply prefix_nil.
    + apply invocations_htar_checks.
    + intros ->. apply prefix_nil_inv in Hpf. subst pre'.
      simpl in Hvars. inversion Hvars; subst v' post'.
      split; [congruence|]. unfold checks. destruct (verify_first a); reflexivity.
  - (* an earlier existence check failed *)
    rewrite Hsplit in Hvars. symmetry in Hvars.
    change (pre' ++ v' :: post') with (pre' ++ [v'] ++ post') in Hvars.
    rewrite app_assoc in Hvars.
    pose proof (prefix_before_failure _ _ _ _ _ _ Hvars Hpre Hnot) as Hpf.
    rewrite Hnew. split; [|split].
    + exists (RuntimeError (msg_verify_failed (path_of a v'))), (pre' ++ [v']).
      rewrite !map_app, argv_checks. repeat split; auto. congruence.
    + rewrite invocations_app, invocations_htar_hsi_ok. reflexivity.
    + intros ->. apply prefix_nil_inv in Hpf. destruct pre'; discriminate.
Qed.



End Run.

(** ** Strings *)

Section StringFacts.

Local Open Scope string_scope.
Local Arguments String.append !s1 s2 / : simpl nomatch.
Import PyStr.

Lemma append_nil_r s : s ++ "" = s.
Proof. induction s as [|c s IH]; simpl; congruence. Qed.

Lemma append_assoc s1 s2 s3 : (s1 ++ s2) ++ s3 = s1 ++ s2 ++ s3.
Proof. induction s1 as [|c s1 IH]; simpl; congruence. Qed.

Lemma length_append s1 s2 :
  String.length (s1 ++ s2) = (String.length s1 + String.length s2)%nat.
Proof. induction s1 as [|c s1 IH]; simpl; congruence. Qed.

Lemma startswith_spec s sub :
  startswith s sub = true <-> exists post, s = sub ++ post.
Proof.
  revert s. induction sub as [|c sub IH]; intros s; simpl.
  - split; [intros _; exists s; reflexivity|reflexivity].
  - destruct s as [|d s].
    + split; [discriminate|]. intros [post Hp]. discriminate.
    + destruct (Ascii.eqb_spec c d) as [->|Hne].
      * rewrite IH. split; intros [post Hp]; exists post; congruence.
      * split; [discriminate|]. intros [post Hp]. congruence.
Qed.

Lemma drop_append p q : drop (String.length p) (p ++ q) = q.
Proof. induction p as [|c p IH]; [destruct q|]; simpl; auto. Qed.

Lemma take_append p q : take (String.length p) (p ++ q) = p.
Proof. induction p as [|c p IH]; [destruct q|]; simpl; congruence. Qed.

(** A string is empty or has a last character. *)
Lemma snoc_cases s : s = "" \/ exists p c, s = p ++ String c "".
Proof.
  induction s as [|c s [->|(p & d & ->)]]; [left; reflexivity| |]; right.
  - exists "", c. reflexivity.
  - exists (String c p), d. reflexivity.
Qed.

(** A bound within the string is not changed, and a negative bound
    counts from the end. *)
Lemma clip_within n i : 0 <= i <= n -> clip n i = i.
Proof.
  intros Hi. unfold clip.
  destruct (Z.ltb_spec i 0); [lia|].
  destruct (Z.ltb_spec i 0); [lia|].
  destruct (Z.ltb_spec n i); lia.
Qed.

Lemma clip_from_end n i : - n <= i < 0 -> clip n i = i + n.
Proof.
  intros Hi. unfold clip.
  destruct (Z.ltb_spec i 0); [|lia].
  destruct (Z.ltb_spec (i + n) 0); [lia|].
  destruct (Z.ltb_spec n (i + n)); lia.
Qed.

(** [s[-1:]] is the last character of [s], if any. *)
Lemma slice_from_last p c :
  slice_from (p ++ String c "") (-1) = String c "".
Proof.
  unfold slice_from, len. rewrite length_append. simpl.
  rewrite clip_from_end by lia.
  replace (Z.to_nat _) with (String.length p) by lia.
  apply drop_append.
Qed.

Lemma slice_from_append s t :
  slice_from (s ++ t) (Z.of_nat (String.length s)) = t.
Proof.
  unfold slice_from, len. rewrite length_append.
  rewrite clip_within by lia. rewrite Nat2Z.id. apply drop_append.
Qed.

Lemma slice_to_append s t :
  slice_to (s ++ t) (Z.of_nat (String.length s)) = s.
Proof.
  unfold slice_to, len. rewrite length_append.
  rewrite clip_within by lia. rewrite Nat2Z.id. apply take_append.
Qed.

(** [find] answers [-1] for a string that does not occur. *)
Lemma find_from_absent sub s : forall i,
  (forall pre post, s <> pre ++ sub ++ post) -> find_from sub s i = -1.
Proof.
  induction s as [|c s IH]; intros i Habs; simpl.
  - destruct (startswith "" sub) eqn:Hs; [|reflexivity].
    apply startswith_spec in Hs as [post Hp]. destruct (Habs "" post Hp).
  - destruct (startswith (String c s) sub) eqn:Hs.
    + apply startswith_spec in Hs as [post Hp]. destruct (Habs "" post Hp).
    + apply IH. intros pre post Hp. apply (Habs (String c pre) post).
      simpl. congruence.
Qed.

(** [find] answers an index between the start and any occurrence. *)
Lemma find_from_occurrence sub pre rest : forall i,
  i <= find_from sub (pre ++ sub ++ rest) i
  <= i + Z.of_nat (String.length pre).
Proof.
  induction pre as [|c pre IH]; intros i.
  - assert (Hs : startswith (sub ++ rest) sub = true)
      by (apply startswith_spec; eauto).
    simpl. destruct (sub ++ rest); simpl in *; rewrite Hs; lia.
  - simpl. destruct (startswith (String c (pre ++ sub ++ rest)) sub); [lia|].
    specialize (IH (i + 1)). lia.
Qed.

(** The index [find] answers is not after any occurrence. *)
Lemma find_least s sub pre rest :
  s = pre ++ sub ++ rest -> find s sub <= Z.of_nat (String.length pre).
Proof.
  intros ->. unfold find.
  pose proof (find_from_occurrence sub pre rest 0). lia.
Qed.

(** [find] answers the index of the first occurrence. *)
Lemma find_from_first sub rest pre : forall i,
  (forall pre' rest', pre ++ sub ++ rest = pre' ++ sub ++ rest' ->
     (String.length pre <= String.length pre')%nat) ->
  find_from sub (pre ++ sub ++ rest) i = i + Z.of_nat (String.length pre).
Proof.
  induction pre as [|c pre IH]; intros i Hmin.
  - pose proof (find_from_occurrence sub "" rest i). simpl in *. lia.
  - simpl. destruct (startswith (String c (pre ++ sub ++ rest)) sub) eqn:Hs.
    + apply startswith_spec in Hs as [post Hp].
      specialize (Hmin "" post Hp). simpl in Hmin. lia.
    + rewrite IH; [lia|]. intros pre' rest' Hp.
      specialize (Hmin (String c pre') rest'). simpl in Hmin.
      rewrite Hp in Hmin. specialize (Hmin eq_refl). lia.
Qed.

(** *** [rfind], [rstrip] and [dirname] *)

Lemma rfind_char_from_absent c f : forall i last,
  contains_char f c = false -> rfind_char_from c f i last = last.
Proof.
  induction f as [|d f IH]; intros i last Hf; [reflexivity|].
  simpl in *. apply orb_false_iff in Hf as [Hd Hf]. rewrite Hd. auto.
Qed.

Lemma rfind_char_from_last c d f : forall i last,
  contains_char f c = false ->
  rfind_char_from c (d ++ String c f) i last
  = i + Z.of_nat (String.length d).
Proof.
  induction d as [|x d IH]; intros i last Hf; simpl.
  - rewrite Ascii.eqb_refl, rfind_char_from_absent by exact Hf. lia.
  - rewrite IH by exact Hf. lia.
Qed.

Lemma rstrip_where_snoc_drop q s x :
  q x = true ->
  rstrip_where q (s ++ String x "") = rstrip_where q s.
Proof.
  intros Hx. induction s as [|a s IH]; simpl.
  - rewrite Hx. reflexivity.
  - rewrite IH. reflexivity.
Qed.

Lemma rstrip_where_snoc_keep q s x :
  q x = false ->
  rstrip_where q (s ++ String x "") = s ++ String x "".
Proof.
  intros Hx. induction s as [|a s IH]; simpl.
  - rewrite Hx. reflexivity.
  - rewrite IH. destruct s; reflexivity.
Qed.

Lemma all_chars_repeat_char c n :
  all_chars (Ascii.eqb c) (repeat_char c n) = true.
Proof.
  induction n as [|n IH]; simpl; [reflexivity|].
  rewrite Ascii.eqb_refl. exact IH.
Qed.

Lemma all_chars_inside q s x t :
  all_chars q (s ++ String x t) = true -> q x = true.
Proof.
  induction s as [|a s IH]; simpl; intros Hall;
    apply andb_true_iff in Hall as [Ha Hall]; auto.
Qed.

(** [dirname] of a directory part that does not end in a separator,
    a separator and a last segment is the directory part. *)
Lemma dirname_segments d c f :
  c <> PosixPath.sep ->
  contains_char f PosixPath.sep = false ->
  PosixPath.dirname ((d ++ String c "") ++ String PosixPath.sep f)
  = d ++ String c "".
Proof.
  intros Hc Hf. unfold PosixPath.dirname, rfind_char.
  rewrite rfind_char_from_last by exact Hf.
  set (head := (d ++ String c "") ++ String PosixPath.sep "").
  assert (Hhead : slice_to ((d ++ String c "") ++ String PosixPath.sep f)
                    (0 + Z.of_nat (String.length (d ++ String c "")) + 1)
                  = head).
  { replace ((d ++ String c "") ++ String PosixPath.sep f)
      with (head ++ f) by (unfold head; rewrite append_assoc; reflexivity).
    replace (0 + Z.of_nat (String.length (d ++ String c "")) + 1)
      with (Z.of_nat (String.length head))
      by (unfold head; rewrite !length_append; simpl; lia).
    apply slice_to_append. }
  rewrite Hhead.
  assert (Hne : String.eqb head "" = false).
  { apply String.eqb_neq. unfold head. destruct d; discriminate. }
  assert (Hrep : String.eqb head
                   (repeat_char PosixPath.sep (String.length head)) = false).
  { apply String.eqb_neq. intros Heq.
    pose proof (all_chars_repeat_char PosixPath.sep (String.length head)) as Hall.
    rewrite <- Heq in Hall. unfold head in Hall. rewrite append_assoc in Hall.
    apply all_chars_inside in Hall.
    apply Ascii.eqb_eq in Hall. congruence. }
  rewrite Hne, Hrep. simpl. unfold head, rstrip_char.
  rewrite rstrip_where_snoc_drop by apply Ascii.eqb_refl.
  apply rstrip_where_snoc_keep. apply Ascii.eqb_neq. congruence.
Qed.

(** [dirname] of one character. *)
Lemma dirname_one_char c :
  PosixPath.dirname (String c "")
  = if Ascii.eqb c PosixPath.sep then "/" else "".
Proof.
  unfold PosixPath.dirname, rfind_char. simpl.
  destruct (Ascii.eqb c PosixPath.sep) eqn:Hc; [|reflexivity].
  apply Ascii.eqb_eq in Hc. subst c. reflexivity.
Qed.

End StringFacts.

(** ** The destination directory *)

Section Destination.

Local Open Scope string_scope.

(** C3.  Without an explicit output directory, when the institution label
    occurs in the path of a variable, the destination directory is what
    the path holds from the first occurrence of the label on, without its
    last segment: when that part is a directory part (not ending in a
    separator), a separator and a last segment without separator, it is
    the directory part. *)
Theorem destination_mirrors_archive inst path pre rest d c f :
  path = pre ++ inst ++ rest ->
  (forall pre' rest', path = pre' ++ inst ++ rest' ->
     (String.length pre <= String.length pre')%nat) ->
  inst ++ rest = (d ++ String c "") ++ "/" ++ f ->
  c <> "/"%char ->
  PyStr.contains_char f "/" = false ->
  out_dir_of None inst path = d ++ String c "".
Proof.
  intros Hpath Hmin Hsplit Hc Hf. unfold out_dir_of, PyStr.find.
  subst path. rewrite find_from_first by exact Hmin.
  replace (PyStr.slice_from (pre ++ inst ++ rest)
             (0 + Z.of_nat (String.length pre)))
    with (inst ++ rest).
  - rewrite Hsplit. apply dirname_segments; assumption.
  - rewrite Z.add_0_l, slice_from_append. reflexivity.
Qed.

(** C10, amended.  Without an explicit output directory, when the
    institution label does not occur in the path of a variable, [find]
    answers [-1] and no exception is raised: the destination directory is
    the [dirname] of the last character of the path, that is ["/"] when the
    path ends with a separator and the empty string otherwise. *)
Theorem destination_without_label inst path :
  (forall pre rest, path <> pre ++ inst ++ rest) ->
  PyStr.find path inst = -1 /\
  ((exists p, path = p ++ "/") -> out_dir_of None inst path = "/") /\
  ((forall p, path <> p ++ "/") -> out_dir_of None inst path = "").
Proof.
  intros Habs.
  assert (Hfind : PyStr.find path inst = -1)
    by (apply find_from_absent, Habs).
  split; [exact Hfind|]. unfold out_dir_of. rewrite Hfind. split.
  - intros [p ->]. rewrite slice_from_last. reflexivity.
  - intros Hend. destruct (snoc_cases path) as [->|(p & c & ->)];
      [reflexivity|].
    rewrite slice_from_last, dirname_one_char.
    destruct (Ascii.eqb_spec c PosixPath.sep) as [->|Hc]; [|reflexivity].
    destruct (Hend p eq_refl).
Qed.

End Destination.

(** ** Template rendering *)

Section Rendering.

Local Open Scope string_scope.
Local Arguments String.append !s1 s2 / : simpl nomatch.
Import Format Template.

Lemma emit_nil k : emit (Some (Ok "")) k = k.
Proof. destruct k as [[s|e]|]; reflexivity. Qed.

Lemma emit_append a b k :
  emit (Some (Ok a)) (emit (Some (Ok b)) k) = emit (Some (Ok (a ++ b))) k.
Proof.
  destruct k as [[s|e]|]; simpl; try reflexivity.
  rewrite append_assoc. reflexivity.
Qed.

Lemma brace_free_cons c s :
  brace_free (String c s) = true ->
  Ascii.eqb c "{" = false /\ Ascii.eqb c "}" = false /\ brace_free s = true.
Proof.
  unfold brace_free. simpl. intros Hb.
  apply andb_true_iff in Hb as [H1 H2].
  apply negb_true_iff, orb_false_iff in H1 as [H1 H1'].
  apply negb_true_iff, orb_false_iff in H2 as [H2 H2'].
  rewrite H1', H2'. auto.
Qed.

Lemma brace_free_append s t :
  brace_free s = true -> brace_free t = true -> brace_free (s ++ t) = true.
Proof.
  intros Hs Ht. induction s as [|c s IH]; [exact Ht|].
  apply brace_free_cons in Hs as (H1 & H2 & Hs). specialize (IH Hs).
  unfold brace_free in *. simpl. rewrite H1, H2. exact IH.
Qed.

(** Literal text without braces is copied. *)
Lemma scan_literal f text rest :
  brace_free text = true ->
  scan f Text (text ++ rest) = emit (Some (Ok text)) (scan f Text rest).
Proof.
  induction text as [|c text IH]; intros Hb.
  - rewrite emit_nil. reflexivity.
  - apply brace_free_cons in Hb as (H1 & H2 & Hb).
    change (scan f Text (String c text ++ rest))
      with (if Ascii.eqb c "{" then scan f Open (text ++ rest)
            else if Ascii.eqb c "}" then scan f Close (text ++ rest)
            else emit (Some (Ok (String c "")))
                   (scan f Text (text ++ rest))).
    rewrite H1, H2, (IH Hb), emit_append. reflexivity.
Qed.

(** The placeholder of a field is replaced by the value of the field. *)
Lemma scan_hole f k rest :
  scan f Text ("{" ++ field_name k ++ "}" ++ rest)
  = emit (Some (Ok (field_value f k))) (scan f Text rest).
Proof. destruct k; reflexivity. Qed.

Lemma format_template_of f ps :
  literals_brace_free ps = true ->
  format (template_of ps) f = Some (Ok (fill f ps)).
Proof.
  unfold format. induction ps as [|[text|k] ps IH]; intros Hlit.
  - reflexivity.
  - simpl in Hlit. apply andb_true_iff in Hlit as [Ht Hlit].
    simpl. rewrite scan_literal by exact Ht. rewrite (IH Hlit). reflexivity.
  - simpl in Hlit.
    change (template_of (Hole k :: ps))
      with ("{" ++ field_name k ++ "}" ++ template_of ps).
    rewrite scan_hole, (IH Hlit). reflexivity.
Qed.

Lemma valid_fields_value f k :
  valid_fields f = true -> brace_free (field_value f k) = true.
Proof.
  unfold valid_fields. rewrite forallb_forall. intros Hall. apply Hall.
  destruct k; simpl; tauto.
Qed.

(** C4.  For a template made of literal text without braces and of
    placeholders of the seven fields, the rendered path is the template
    with the value of each field at the place of its placeholder, whatever
    the values; and it has no brace left when the values of the fields have
    none. *)
Theorem template_rendering f ps :
  literals_brace_free ps = true ->
  format (template_of ps) f = Some (Ok (fill f ps)) /\
  (valid_fields f = true -> brace_free (fill f ps) = true).
Proof.
  intros Hlit. split; [apply format_template_of, Hlit|]. intros Hval.
  induction ps as [|[text|k] ps IH]; [reflexivity| |]; simpl in Hlit.
  - apply andb_true_iff in Hlit as [Ht Hlit].
    simpl. apply brace_free_append; auto.
  - simpl. apply brace_free_append; auto. apply valid_fields_value, Hval.
Qed.

End Rendering.

(** ** The claims on concrete runs *)

Section Scenarios.

Import Toy.

(** "hus" is checked, the check of "ua" fails: no extraction.  And on a
    machine without [hsi] a check fails. *)
Lemma verification_failure_aborts_witness :
  (exists pre v post,
     variables_of missing_ua_args = pre ++ v :: post /\
     all_rendered missing_ua_args (pre ++ [v]) /\
     hsi_argv ua_path = hsi_argv (path_of missing_ua_args v) /\
     fst (extract_c20c_data missing_ua_args missing_ua)
     = Raise (RuntimeError (msg_verify_failed (path_of missing_ua_args v))) /\
     new_events missing_ua (snd (extract_c20c_data missing_ua_args missing_ua))
     = map (hsi_ok missing_ua_args) pre
       ++ [Invoked (hsi_argv ua_path) (Exited 64)] /\
     invocations "htar"
       (new_events missing_ua
          (snd (extract_c20c_data missing_ua_args missing_ua))) = []) /\
  (exists ev,
     ev ∈ new_events all_on_tape
            (snd (extract_c20c_data (Sys := offline_system) missing_ua_args
                    all_on_tape)) /\
     is_hsi ev = true /\ succeeded ev = false).
Proof.
  split.
  - assert (Hrun : extract_c20c_data missing_ua_args missing_ua
                   = (fst (extract_c20c_data missing_ua_args missing_ua),
                      snd (extract_c20c_data missing_ua_args missing_ua)))
      by (vm_compute; reflexivity).
    apply (proj1 (verification_failure_aborts missing_ua_args missing_ua _ _
                    eq_refl Hrun)
             (Invoked (hsi_argv ua_path) (Exited 64))).
    + vm_compute. apply list_elem_of_In. simpl. auto.
    + reflexivity.
    + reflexivity.
  - assert (Hrun : extract_c20c_data (Sys := offline_system) missing_ua_args
                     all_on_tape
                   = (fst (extract_c20c_data (Sys := offline_system)
                             missing_ua_args all_on_tape),
                      snd (extract_c20c_data (Sys := offline_system)
                             missing_ua_args all_on_tape)))
      by (vm_compute; reflexivity).
    apply (proj2 (verification_failure_aborts (Sys := offline_system)
                    missing_ua_args all_on_tape _ _ eq_refl Hrun) "ua").
    + apply list_elem_of_In. simpl. auto.
    + intros v Hv. apply list_elem_of_In in Hv.
      destruct Hv as [<-|[<-|[]]]; reflexivity.
    + intros fs0 c. discriminate.
Defined.

(** "hus" is extracted into "out"; at "ua" the directory has an entry
    and the run returns. *)
Lemma clobber_skip_returns_witness :
  exists st',
    extract_c20c_data no_clobber_args all_on_tape = (Ok tt, st') /\
    new_events all_on_tape st'
    = checks no_clobber_args (variables_of no_clobber_args)
      ++ map (htar_ok no_clobber_args) ["hus"] /\
    invocations "htar" (new_events all_on_tape st')
    = map (htar_ok no_clobber_args) ["hus"].
Proof.
  eexists.
  eapply (clobber_skip_returns no_clobber_args all_on_tape _ _ _
            ["hus"] "ua" []).
  - reflexivity.
  - reflexivity.
  - vm_compute. reflexivity.
  - vm_compute. reflexivity.
  - vm_compute. reflexivity.
  - vm_compute. reflexivity.
Defined.

(** The second of three extractions fails: the third is not tried. *)
Lemma extraction_failure_aborts_witness :
  exists pre v post,
    variables_of broken_ua_args = pre ++ v :: post /\
    Invoked (htar_argv 15 ua_path) (Exited 72)
    = Invoked (htar_argv (htar_threads broken_ua_args)
                 (path_of broken_ua_args v)) (Exited 72) /\
    fst (extract_c20c_data broken_ua_args broken_ua)
    = Raise (CalledProcessError 72
               (htar_argv (htar_threads broken_ua_args)
                  (path_of broken_ua_args v))) /\
    new_events broken_ua (snd (extract_c20c_data broken_ua_args broken_ua))
    = checks broken_ua_args (variables_of broken_ua_args)
      ++ map (htar_ok broken_ua_args) pre
      ++ [Invoked (htar_argv 15 ua_path) (Exited 72)] /\
    invocations "htar"
      (new_events broken_ua
         (snd (extract_c20c_data broken_ua_args broken_ua)))
    = map (htar_ok broken_ua_args) pre
      ++ [Invoked (htar_argv 15 ua_path) (Exited 72)].
Proof.
  apply (extraction_failure_aborts broken_ua_args broken_ua
           (fst (extract_c20c_data broken_ua_args broken_ua))
           (snd (extract_c20c_data broken_ua_args broken_ua))
           (Invoked (htar_argv 15 ua_path) (Exited 72)) 72).
  - vm_compute. reflexivity.
  - vm_compute. apply list_elem_of_In. simpl. auto 10.
  - reflexivity.
  - reflexivity.
  - lia.
Defined.

(** The default run ends where it started. *)
Lemma working_directory_restored_witness :
  cwd (snd (extract_c20c_data default_args all_on_tape)) = cwd all_on_tape.
Proof.
  apply (working_directory_restored default_args all_on_tape).
  - reflexivity.
  - vm_compute. reflexivity.
Defined.

(** The failed extraction of "ua" leaves the process in its directory:
    the run started in [/home/user], the extraction of "hus" came back to
    it, and the one of "ua" ended with return code 72. *)
Lemma working_directory_after_failure_witness :
  cwd broken_ua = "/home/user"%string /\
  Invoked (htar_argv 15 ua_path) (Exited 72)
    ∈ new_events broken_ua (snd (extract_c20c_data broken_ua_args broken_ua)) /\
  cwd (snd (extract_c20c_data broken_ua_args broken_ua))
  = "/home/user/LBNL/CAM5-1-1degree/All-Hist/est1/v2-0/3hr/atmos/ua/run001"%string /\
  exists pre v post fs0,
    variables_of broken_ua_args = pre ++ v :: post /\
    htar_argv 15 ua_path
    = htar_argv (htar_threads broken_ua_args) (path_of broken_ua_args v) /\
    fst (extract_c20c_data broken_ua_args broken_ua)
    = Raise (CalledProcessError 72 (htar_argv 15 ua_path)) /\
    sys_chdir fs0 (cwd broken_ua) (dest_of broken_ua_args v)
    = Ok (cwd (snd (extract_c20c_data broken_ua_args broken_ua))) /\
    sys_run fs0 (cwd (snd (extract_c20c_data broken_ua_args broken_ua)))
      (htar_argv 15 ua_path)
    = (Exited 72, fs (snd (extract_c20c_data broken_ua_args broken_ua))).
Proof.
  assert (Hev : Invoked (htar_argv 15 ua_path) (Exited 72)
                ∈ new_events broken_ua
                    (snd (extract_c20c_data broken_ua_args broken_ua))).
  { apply list_elem_of_In. vm_compute. tauto. }
  split; [reflexivity|]. split; [exact Hev|].
  split; [vm_compute; reflexivity|].
  apply (proj2 (working_directory_after_failure broken_ua_args broken_ua
                  (fst (extract_c20c_data broken_ua_args broken_ua))
                  (snd (extract_c20c_data broken_ua_args broken_ua))
                  eq_refl (surjective_pairing _))
           (Invoked (htar_argv 15 ua_path) (Exited 72)) Hev eq_refl eq_refl).
Defined.

(** The rendering of "ua" fails after the check of "hus". *)
Lemma template_failure_runs_no_extraction_witness :
  (exists e' checked,
     fst (extract_c20c_data indexed_args indexed) = Raise e' /\
     checked `prefix_of` ["hus"] /\
     map argv (new_events indexed (snd (extract_c20c_data indexed_args indexed)))
     = map (fun u => hsi_argv (path_of indexed_args u)) checked /\
     (verify_first indexed_args = false -> checked = [])) /\
  invocations "htar"
    (new_events indexed (snd (extract_c20c_data indexed_args indexed))) = [] /\
  (["hus"] = [] ->
   fst (extract_c20c_data indexed_args indexed) = Raise IndexError /\
   new_events indexed (snd (extract_c20c_data indexed_args indexed)) = []).
Proof.
  apply (template_failure_runs_no_extraction indexed_args indexed
           (fst (extract_c20c_data indexed_args indexed))
           (snd (extract_c20c_data indexed_args indexed))
           ["hus"] "ua" [] IndexError).
  - vm_compute. reflexivity.
  - reflexivity.
  - reflexivity.
Defined.

(** C7, as stated, fails: the rendering of "ua" fails, and the existence
    check of "hus" has been run by then. *)
Lemma template_failure_after_check_counterexample :
  "ua" ∈ variables_of indexed_args /\
  rendered indexed_args "hus" = Ok "/x/s" /\
  rendered indexed_args "ua" = Raise IndexError /\
  extract_c20c_data indexed_args indexed
  = (Raise IndexError,
     mkState "/home/user" (mkToy ["/x/s"] [] home)
       [Invoked ["hsi"; "ls /x/s"] (Exited 0)] [msg_checking]) /\
  new_events indexed (snd (extract_c20c_data indexed_args indexed)) <> [].
Proof.
  split; [apply list_elem_of_In; simpl; auto|].
  split; [reflexivity|]. split; [reflexivity|].
  split; [vm_compute; reflexivity|]. vm_compute. discriminate.
Qed.



End Scenarios.

(** ** The claims on concrete strings *)

Section StringScenarios.

Local Open Scope string_scope.

(** A path is rendered from the default template. *)
Lemma template_rendering_witness :
  Format.format default_path_template Toy.default_fields
  = Some (Ok Toy.hus_path) /\
  Template.brace_free Toy.hus_path = true.
Proof.
  destruct (template_rendering Toy.default_fields Template.default_pieces
              eq_refl) as [Hfmt Hfree].
  split; [exact Hfmt|exact (Hfree eq_refl)].
Defined.

(** The destination of P4. *)
Lemma destination_mirrors_archive_witness :
  out_dir_of None "LBNL" "/a/b/LBNL/CAM5/x/hus_A3hr.tar" = "LBNL/CAM5/x".
Proof.
  apply (destination_mirrors_archive "LBNL" "/a/b/LBNL/CAM5/x/hus_A3hr.tar"
           "/a/b/" "/CAM5/x/hus_A3hr.tar" "LBNL/CAM5/" "x" "hus_A3hr.tar").
  - reflexivity.
  - intros pre' rest' Hp. pose proof (find_least _ _ _ _ Hp) as Hle.
    change (PyStr.find "/a/b/LBNL/CAM5/x/hus_A3hr.tar" "LBNL") with 5 in Hle.
    simpl. lia.
  - reflexivity.
  - discriminate.
  - reflexivity.
Defined.

(** A template without the institution: the destination is empty. *)
Lemma destination_without_label_witness :
  PyStr.find "/data/hus.tar" "LBNL" = -1 /\
  ((exists p, "/data/hus.tar" = p ++ "/") ->
   out_dir_of None "LBNL" "/data/hus.tar" = "/") /\
  ((forall p, "/data/hus.tar" <> p ++ "/") ->
   out_dir_of None "LBNL" "/data/hus.tar" = "").
Proof.
  apply (destination_without_label "LBNL" "/data/hus.tar").
  intros pre rest Hp.
  pose proof (find_from_occurrence "LBNL" pre rest 0) as Hocc.
  rewrite <- Hp in Hocc.
  change (PyStr.find_from "LBNL" "/data/hus.tar" 0) with (-1) in Hocc. lia.
Defined.

(** C10, as stated, fails: the label does not occur in the path, and the
    destination is the root directory, not the empty string. *)
Lemma destination_without_label_counterexample :
  Format.format "/data/{variable}/" Toy.default_fields
  = Some (Ok "/data/hus/") /\
  PyStr.find "/data/hus/" "LBNL" = -1 /\
  out_dir_of None "LBNL" "/data/hus/" = "/" /\
  out_dir_of None "LBNL" "/data/hus/" <> "".
Proof. repeat split; try reflexivity. discriminate. Qed.

End StringScenarios.

(** * Further properties of the run *)

Section Commands.

Context {FS : Type} {Sys : System FS}.

Lemma invocations_hsi_htar_ok a l : invocations "hsi" (map (htar_ok a) l) = [].
Proof. induction l as [|v l IH]; [reflexivity|exact IH]. Qed.

Lemma Forall_is_hsi_checks a l : Forall (fun ev => is_hsi ev = true) (checks a l).
Proof.
  unfold checks. destruct (verify_first a); [|constructor].
  apply Forall_forall. intros ev Hev. apply elem_of_hsi_ok in Hev. tauto.
Qed.

Lemma Forall_is_htar_htar_ok a l :
  Forall (fun ev => is_htar ev = true) (map (htar_ok a) l).
Proof.
  apply Forall_forall. intros ev Hev. apply elem_of_htar_ok in Hev. tauto.
Qed.

Lemma length_checks a l : (length (checks a l) <= length l)%nat.
Proof.
  unfold checks. destruct (verify_first a); simpl; [rewrite length_map|]; lia.
Qed.

(** X3.  With verification disabled, a run never runs [hsi]. *)
Theorem no_verification_no_hsi a (st : state FS) r st' :
  verify_first a = false ->
  extract_c20c_data a st = (r, st') ->
  invocations "hsi" (new_events st st') = [].
Proof.
  intros Hvf Hrun. apply run_ending in Hrun.
  assert (Hchecks : forall l, checks a l = [])
    by (intros l; unfold checks; rewrite Hvf; reflexivity).
  destruct Hrun as [pre v post e Hvars Hpre Hv Hr Hnew Hc
                   |pre v post res Hvf' Hvars Hpre Hbad Hr Hnew Hc
                   |Hall Hr Hnew Hc
                   |pre v post en ens Hclob Hvars Hall Hdir Hls Hr Hnew Hc
                   |pre v post res Hvars Hall Hbad Hr Hnew Hc
                   |pre post e Hvars Hall Hr Hnew];
    try congruence; rewrite Hnew, Hchecks;
    rewrite ?invocations_app, ?invocations_hsi_htar_ok; reflexivity.
Qed.

(** X4.  With overwriting allowed, a run that returns has run the
    extraction command once for every variable of the list, in the order of
    the list, after the existence checks. *)
Theorem clobbering_run_extracts_all a (st : state FS) st' :
  clobber a = true ->
  extract_c20c_data a st = (Ok tt, st') ->
  new_events st st'
  = checks a (variables_of a) ++ map (htar_ok a) (variables_of a).
Proof.
  intros Hclob Hrun. apply run_ending in Hrun.
  destruct Hrun as [pre v post e Hvars Hpre Hv Hr Hnew Hc
                   |pre v post res Hvf' Hvars Hpre Hbad Hr Hnew Hc
                   |Hall Hr Hnew Hc
                   |pre v post en ens Hclob' Hvars Hall Hdir Hls Hr Hnew Hc
                   |pre v post res Hvars Hall Hbad Hr Hnew Hc
                   |pre post e Hvars Hall Hr Hnew];
    try congruence.
Qed.

(** X5.  In every run the existence checks come before the extraction
    commands, and neither command is run more often than there are
    variables in the list. *)
Theorem checks_precede_extractions a (st : state FS) r st' :
  extract_c20c_data a st = (r, st') ->
  exists hs ts,
    new_events st st' = hs ++ ts /\
    Forall (fun ev => is_hsi ev = true) hs /\
    Forall (fun ev => is_htar ev = true) ts /\
    (length hs <= length (variables_of a))%nat /\
    (length ts <= length (variables_of a))%nat.
Proof.
  intros Hrun. apply run_ending in Hrun.
  pose proof (length_checks a (variables_of a)) as Hlen.
  destruct Hrun as [pre v post e Hvars Hpre Hv Hr Hnew Hc
                   |pre v post res Hvf' Hvars Hpre Hbad Hr Hnew Hc
                   |Hall Hr Hnew Hc
                   |pre v post en ens Hclob' Hvars Hall Hdir Hls Hr Hnew Hc
                   |pre v post res Hvars Hall Hbad Hr Hnew Hc
                   |pre post e Hvars Hall Hr Hnew];
    rewrite Hnew; try rewrite Hvars in *.
  - exists (checks a pre), []. rewrite app_nil_r.
    pose proof (length_checks a pre).
    repeat split; auto using Forall_is_hsi_checks.
    + rewrite length_app. simpl. lia.
    + simpl. lia.
  - exists (map (hsi_ok a) pre ++ [Invoked (hsi_argv (path_of a v)) res]), [].
    rewrite app_nil_r. repeat split; auto.
    + apply Forall_app. split; [|repeat constructor].
      apply Forall_forall. intros ev Hev. apply elem_of_hsi_ok in Hev. tauto.
    + rewrite !length_app, length_map. simpl. lia.
    + simpl. lia.
  - exists (checks a (variables_of a)), (map (htar_ok a) (variables_of a)).
    repeat split; auto using Forall_is_hsi_checks, Forall_is_htar_htar_ok.
    rewrite length_map. lia.
  - exists (checks a (pre ++ v :: post)), (map (htar_ok a) pre).
    repeat split; auto using Forall_is_hsi_checks, Forall_is_htar_htar_ok.
    rewrite length_map, length_app. lia.
  - exists (checks a (pre ++ v :: post)),
      (map (htar_ok a) pre
       ++ [Invoked (htar_argv (htar_threads a) (path_of a v)) res]).
    repeat split; auto using Forall_is_hsi_checks.
    + apply Forall_app. split; [apply Forall_is_htar_htar_ok|repeat constructor].
    + rewrite !length_app, length_map. simpl. lia.
  - exists (checks a (pre ++ post)), (map (htar_ok a) pre).
    repeat split; auto using Forall_is_hsi_checks, Forall_is_htar_htar_ok.
    rewrite length_map, length_app. lia.
Qed.

(** X6.  When the first loop ends without exception, the dictionary
    [htar_paths] holds the variables of the list and no other key, each with
    its rendered path. *)
Theorem htar_paths_content a (st : state FS) paths st1 :
  build_htar_paths a st = (Ok paths, st1) ->
  forall v p,
    paths !! v = Some p <-> v ∈ variables_of a /\ rendered a v = Ok p.
Proof.
  intros Hb v p.
  apply build_htar_paths_inv in Hb
    as (st0 & _ & _ & _ & _ & done & post & tail & Hvars & Hdone & _
        & -> & _ & Hin & Hout).
  rewrite app_nil_r in Hvars. subst done. split.
  - intros Hp. destruct (decide (v ∈ variables_of a)) as [Hv|Hv].
    + split; [exact Hv|]. rewrite (Hin v Hv) in Hp. rewrite (Hdone v Hv).
      congruence.
    + rewrite (Hout v Hv), lookup_empty in Hp. discriminate.
  - intros [Hv Hr]. rewrite (Hin v Hv). rewrite (Hdone v Hv) in Hr. congruence.
Qed.

(** X7.  With an empty list of variables the run returns without running a
    command and without touching the working directory or the file system. *)
Theorem empty_list_does_nothing a (st : state FS) :
  variable_list a = Some [] ->
  exists st',
    extract_c20c_data a st = (Ok tt, st') /\
    new_events st st' = [] /\ cwd st' = cwd st /\ fs st' = fs st.
Proof.
  intros Hl. unfold extract_c20c_data, build_htar_paths, variables_of.
  rewrite Hl. unfold new_events.
  destruct (verify_first a); [unfold vprint; destruct (verbose a)|];
    eexists; (split; [reflexivity|]); simpl; rewrite drop_all; auto.
Qed.

End Commands.

(** ** What the run prints *)

Section Output.

Context {FS : Type} {Sys : System FS}.

Lemma silent_bind {A B} (m : M FS A) (k : A -> M FS B) :
  silent m -> (forall x, silent (k x)) -> silent (bind m k).
Proof.
  intros Hm Hk st r st' Hrun.
  apply bind_inv in Hrun as [(x & st1 & Hm1 & Hk1)|(e & Hm1 & _)].
  - rewrite (Hk _ _ _ _ Hk1). eapply Hm, Hm1.
  - eapply Hm, Hm1.
Qed.

Lemma silent_pure {A} (m : M FS A) :
  (forall st, snd (m st) = st) -> silent m.
Proof.
  intros Hpure st r st' Hrun. specialize (Hpure st). rewrite Hrun in Hpure.
  simpl in Hpure. congruence.
Qed.

Lemma silent_ret {A} (x : A) : silent (ret (FS := FS) x).
Proof. apply silent_pure. reflexivity. Qed.

Lemma silent_vprint a line : verbose a = false -> silent (vprint (FS := FS) a line).
Proof. intros Hq. unfold vprint. rewrite Hq. apply silent_ret. Qed.

Lemma silent_subprocess_run args : silent (subprocess_run args).
Proof.
  intros st r st' Hrun. apply subprocess_run_inv in Hrun as (res & _ & Ho & _).
  exact Ho.
Qed.

Lemma silent_os_makedirs p : silent (os_makedirs p).
Proof. intros st r st' Hrun. apply os_makedirs_inv in Hrun. tauto. Qed.

Lemma silent_os_chdir p : silent (os_chdir p).
Proof. intros st r st' Hrun. apply os_chdir_inv in Hrun. tauto. Qed.

Lemma silent_clobber_check a d : verbose a = false -> silent (clobber_check a d).
Proof.
  intros Hq. unfold clobber_check. destruct (negb (clobber a)); [|apply silent_ret].
  apply silent_bind; [apply silent_pure; reflexivity|].
  intros [|]; [|apply silent_ret].
  apply silent_bind; [apply silent_pure; reflexivity|].
  intros entries. destruct (negb _); [|apply silent_ret].
  apply silent_bind; [apply silent_vprint, Hq|intros _; apply silent_ret].
Qed.

Lemma silent_verify_loop a vars : forall paths, silent (verify_loop a vars paths).
Proof.
  induction vars as [|v vars IH]; intros paths; [apply silent_ret|].
  simpl. apply silent_bind; [apply silent_pure; reflexivity|].
  intros p. apply silent_bind; [|intros _; apply IH].
  destruct (verify_first a); [|apply silent_ret].
  intros st r st' Hrun. unfold try_except in Hrun.
  destruct (subprocess_run (hsi_argv p) st) as [[u|e] st1] eqn:Hsub;
    inversion Hrun; subst; eapply silent_subprocess_run, Hsub.
Qed.

Lemma silent_extract_loop a paths vars :
  verbose a = false -> silent (extract_loop a vars paths).
Proof.
  intros Hq. induction vars as [|v vars IH]; [apply silent_ret|].
  simpl. apply silent_bind.
  { unfold dict_get. destruct (paths !! v); apply silent_pure; reflexivity. }
  intros p. apply silent_bind; [apply silent_clobber_check, Hq|].
  intros [|]; [apply silent_ret|].
  apply silent_bind; [apply silent_os_makedirs|]. intros _.
  apply silent_bind; [apply silent_pure; reflexivity|]. intros c.
  apply silent_bind; [apply silent_os_chdir|]. intros _.
  apply silent_bind; [apply silent_vprint, Hq|]. intros _.
  apply silent_bind; [apply silent_subprocess_run|]. intros _.
  apply silent_bind; [apply silent_os_chdir|]. intros _. exact IH.
Qed.

(** X1.  A run that is not verbose prints nothing, however it ends. *)
Theorem quiet_run_prints_nothing a (st : state FS) r st' :
  verbose a = false ->
  extract_c20c_data a st = (r, st') ->
  stdout st' = stdout st.
Proof.
  intros Hq. revert st r st'. change (silent (extract_c20c_data a)).
  unfold extract_c20c_data, build_htar_paths.
  apply silent_bind.
  - apply silent_bind; [|intros _; apply silent_verify_loop].
    destruct (verify_first a); [apply silent_vprint, Hq|apply silent_ret].
  - intros paths. apply silent_bind;
      [apply silent_extract_loop, Hq|intros _; apply silent_ret].
Qed.

(** *** Verbosity changes the output only *)

Lemma same_but_output_refl (st : state FS) : same_but_output st st.
Proof. repeat split. Qed.

Lemma agree_bind {A B} (m1 m2 : M FS A) (k1 k2 : A -> M FS B) :
  agree m1 m2 -> (forall x, agree (k1 x) (k2 x)) ->
  agree (bind m1 k1) (bind m2 k2).
Proof.
  intros Hm Hk st1 st2 Hst. destruct (Hm st1 st2 Hst) as [Hr Hs].
  unfold bind. destruct (m1 st1) as [[x1|e1] st1'], (m2 st2) as [[x2|e2] st2'];
    simpl in *; try discriminate.
  - assert (x1 = x2) by congruence. subst x2. apply Hk, Hs.
  - split; [congruence|exact Hs].
Qed.

Ltac agree_primitive :=
  let Hc := fresh "Hc" in
  let Hf := fresh "Hf" in
  let Hh := fresh "Hh" in
  intros [? ? ? ?] [? ? ? ?] (Hc & Hf & Hh); simpl in Hc, Hf, Hh; subst;
  simpl; repeat split.

Lemma agree_ret {A} (x : A) : agree (ret (FS := FS) x) (ret x).
Proof. agree_primitive. Qed.

Lemma agree_raise {A} e : agree (raise (FS := FS) (A := A) e) (raise e).
Proof. agree_primitive. Qed.

Lemma agree_lift {A} (r : outcome A) : agree (lift (FS := FS) r) (lift r).
Proof. agree_primitive. Qed.

Lemma agree_vprint a1 a2 l1 l2 : agree (vprint (FS := FS) a1 l1) (vprint a2 l2).
Proof.
  unfold vprint, print, ret.
  destruct (verbose a1), (verbose a2); agree_primitive.
Qed.

Lemma agree_os_path_isdir p : agree (os_path_isdir p) (os_path_isdir p).
Proof. agree_primitive. Qed.

Lemma agree_os_listdir p : agree (os_listdir p) (os_listdir p).
Proof. agree_primitive. Qed.

Lemma agree_os_getcwd : agree (os_getcwd (FS := FS)) os_getcwd.
Proof. agree_primitive. Qed.

Lemma agree_os_makedirs p : agree (os_makedirs p) (os_makedirs p).
Proof.
  agree_primitive; unfold os_makedirs; simpl;
    destruct (sys_makedirs _ _ p); reflexivity.
Qed.

Lemma agree_os_chdir p : agree (os_chdir p) (os_chdir p).
Proof.
  agree_primitive; unfold os_chdir; simpl;
    destruct (sys_chdir _ _ p); reflexivity.
Qed.

Lemma agree_subprocess_run args : agree (subprocess_run args) (subprocess_run args).
Proof.
  agree_primitive; unfold subprocess_run; simpl;
    destruct (sys_run _ _ args) as [[rc|e] fs'];
    try destruct (rc =? 0); reflexivity.
Qed.

Lemma agree_try_except {A} (m1 m2 : M FS A) (h1 h2 : exn -> M FS A) :
  agree m1 m2 -> (forall e, agree (h1 e) (h2 e)) ->
  agree (try_except m1 h1) (try_except m2 h2).
Proof.
  intros Hm Hh st1 st2 Hst. destruct (Hm st1 st2 Hst) as [Hr Hs].
  unfold try_except.
  destruct (m1 st1) as [[x1|e1] st1'], (m2 st2) as [[x2|e2] st2'];
    simpl in *; try discriminate.
  - split; [exact Hr|exact Hs].
  - assert (e1 = e2) by congruence. subst e2. apply Hh, Hs.
Qed.

Lemma agree_verify_loop b a vars : forall paths,
  agree (verify_loop (set_verbose b a) vars paths) (verify_loop a vars paths).
Proof.
  induction vars as [|v vars IH]; intros paths; [apply agree_ret|].
  simpl. apply agree_bind; [apply agree_lift|]. intros p.
  apply agree_bind; [|intros _; apply IH].
  destruct (verify_first a); [|apply agree_ret].
  apply agree_try_except; [apply agree_subprocess_run|].
  intros _. apply agree_raise.
Qed.

Lemma agree_clobber_check b a d :
  agree (clobber_check (set_verbose b a) d) (clobber_check a d).
Proof.
  unfold clobber_check. simpl. destruct (negb (clobber a)); [|apply agree_ret].
  apply agree_bind; [apply agree_os_path_isdir|].
  intros [|]; [|apply agree_ret].
  apply agree_bind; [apply agree_os_listdir|].
  intros entries. destruct (negb _); [|apply agree_ret].
  apply agree_bind; [apply agree_vprint|intros _; apply agree_ret].
Qed.

Lemma agree_extract_loop b a paths vars :
  agree (extract_loop (set_verbose b a) vars paths) (extract_loop a vars paths).
Proof.
  induction vars as [|v vars IH]; [apply agree_ret|].
  simpl. apply agree_bind.
  { unfold dict_get. destruct (paths !! v); [apply agree_ret|apply agree_raise]. }
  intros p. apply agree_bind; [apply agree_clobber_check|].
  intros [|]; [apply agree_ret|].
  apply agree_bind; [apply agree_os_makedirs|]. intros _.
  apply agree_bind; [apply agree_os_getcwd|]. intros c.
  apply agree_bind; [apply agree_os_chdir|]. intros _.
  apply agree_bind; [apply agree_vprint|]. intros _.
  apply agree_bind; [apply agree_subprocess_run|]. intros _.
  apply agree_bind; [apply agree_os_chdir|]. intros _. exact IH.
Qed.

(** X2.  The verbosity changes nothing but the lines printed: with either
    value of [verbose] the run ends the same way, with the same exception if
    any, the same commands run, the same file system and the same working
    directory. *)
Theorem verbosity_changes_output_only a b (st : state FS) :
  fst (extract_c20c_data (set_verbose b a) st) = fst (extract_c20c_data a st) /\
  same_but_output (snd (extract_c20c_data (set_verbose b a) st))
    (snd (extract_c20c_data a st)).
Proof.
  assert (Hagree : agree (extract_c20c_data (set_verbose b a))
                     (extract_c20c_data a)).
  { unfold extract_c20c_data, build_htar_paths.
    change (variables_of (set_verbose b a)) with (variables_of a).
    apply agree_bind.
    - apply agree_bind; [|intros _; apply agree_verify_loop].
      simpl. destruct (verify_first a); [apply agree_vprint|apply agree_ret].
    - intros paths. apply agree_bind;
        [apply agree_extract_loop|intros _; apply agree_ret]. }
  apply Hagree, same_but_output_refl.
Qed.

(** *** The lines of a complete run *)

Lemma clobber_check_no_skip a d (st : state FS) st' :
  clobber_check a d st = (Ok false, st') -> stdout st' = stdout st.
Proof.
  unfold clobber_check. destruct (negb (clobber a)).
  2:{ intros Hr; inversion Hr; reflexivity. }
  unfold bind at 1, os_path_isdir at 1.
  destruct (sys_isdir (fs st) (cwd st) d).
  2:{ intros Hr; inversion Hr; reflexivity. }
  unfold bind at 1, os_listdir at 1.
  destruct (sys_listdir (fs st) (cwd st) d) as [entries|e].
  2:{ intros Hr; inversion Hr. }
  destruct (negb _).
  - intros Hr. apply bind_inv in Hr as [(u & st1 & _ & Hr)|(e & _ & Hr)];
      inversion Hr.
  - intros Hr; inversion Hr; reflexivity.
Qed.

Lemma build_htar_paths_prints a (st : state FS) r1 st1 :
  build_htar_paths a st = (r1, st1) ->
  stdout st1
  = stdout st
    ++ (if verify_first a then if verbose a then [msg_checking] else [] else []).
Proof.
  unfold build_htar_paths. intros Hb.
  apply bind_inv in Hb as [(u & st0 & Hpre & Hloop)|(e & Hpre & _)].
  - apply verify_loop_spec in Hloop as (_ & Ho & _). rewrite Ho.
    destruct (verify_first a).
    + apply vprint_inv in Hpre. tauto.
    + inversion Hpre; subst. rewrite app_nil_r. reflexivity.
  - destruct (verify_first a).
    + apply vprint_inv in Hpre as (Hpre & _). discriminate.
    + discriminate.
Qed.

Lemma extract_loop_prints a paths vars : forall (st : state FS) st',
  (forall v, v ∈ vars -> paths !! v = Some (path_of a v)) ->
  extract_loop a vars paths st = (Ok Next, st') ->
  stdout st'
  = stdout st ++ (if verbose a then map (extracting_line a) vars else []).
Proof.
  induction vars as [|v vars IH]; intros st st' Hpaths Hrun.
  - inversion Hrun; subst. destruct (verbose a); rewrite app_nil_r; reflexivity.
  - simpl in Hrun. unfold dict_get at 1 in Hrun.
    rewrite (Hpaths v) in Hrun by (apply elem_of_cons; auto).
    unfold bind at 1, ret at 1 in Hrun.
    apply bind_inv in Hrun as [(skip & st1 & Hchk & Hrun)|(e & _ & He)];
      [|discriminate].
    destruct skip; [inversion Hrun|].
    apply clobber_check_no_skip in Hchk.
    apply bind_inv in Hrun as [(u2 & st2 & Hmk & Hrun)|(e & _ & He)];
      [|discriminate].
    apply os_makedirs_inv in Hmk as (_ & _ & Ho2).
    unfold bind at 1, os_getcwd at 1 in Hrun.
    apply bind_inv in Hrun as [(u3 & st3 & Hcd & Hrun)|(e & _ & He)];
      [|discriminate].
    apply os_chdir_inv in Hcd as (_ & Ho3 & _).
    apply bind_inv in Hrun as [(u4 & st4 & Hpr & Hrun)|(e & _ & He)];
      [|discriminate].
    apply vprint_inv in Hpr as (_ & _ & _ & _ & Ho4).
    apply bind_inv in Hrun as [(u5 & st5 & Hsub & Hrun)|(e & _ & He)];
      [|discriminate].
    apply subprocess_run_inv in Hsub as (res & _ & Ho5 & _).
    apply bind_inv in Hrun as [(u6 & st6 & Hcd & Hrun)|(e & _ & He)];
      [|discriminate].
    apply os_chdir_inv in Hcd as (_ & Ho6 & _).
    apply IH in Hrun; [|intros u Hu; apply Hpaths, elem_of_cons; auto].
    rewrite Hrun, Ho6, Ho5, Ho4, Ho3, Ho2, Hchk.
    unfold extracting_line. destruct (verbose a); simpl;
      rewrite <- ?app_assoc, ?app_nil_r; reflexivity.
Qed.

(** X8.  With overwriting allowed, a verbose run that returns has printed
    the line that announces the checks, when verification is enabled, and
    then one line for every variable of the list, in the order of the list;
    and nothing else. *)
Theorem complete_run_output a (st : state FS) st' :
  clobber a = true ->
  extract_c20c_data a st = (Ok tt, st') ->
  stdout st'
  = stdout st
    ++ (if verbose a
        then (if verify_first a then [msg_checking] else [])
             ++ map (extracting_line a) (variables_of a)
        else []).
Proof.
  intros Hclob Hrun. apply run_inv in Hrun
    as (st0 & r1 & st1 & _ & _ & Hb & _ & Hrest).
  destruct r1 as [paths|e]; [|destruct Hrest; discriminate].
  destruct Hrest as (r2 & Hx & Hpost & Hr).
  destruct r2 as [[|]|e]; [| |discriminate].
  - apply extract_loop_prints in Hx;
      [|apply (build_htar_paths_complete _ _ _ _ Hb)].
    rewrite Hx, (build_htar_paths_prints _ _ _ _ Hb).
    destruct (verbose a), (verify_first a); simpl;
      rewrite <- ?app_assoc, ?app_nil_r; reflexivity.
  - destruct Hpost as (done & post & tail & _ & _ & _ & _ & v & post' & _
                       & Hfalse & _).
    congruence.
Qed.

End Output.

(** * Further properties of the strings *)

Section Splitting.

Local Open Scope string_scope.
Local Arguments String.append !s1 s2 / : simpl nomatch.
Import PyStr.

Lemma split_nonempty s c : split s c <> [].
Proof.
  destruct s as [|d s]; simpl; [discriminate|].
  destruct (Ascii.eqb d c); [discriminate|].
  destruct (split s c); discriminate.
Qed.

Lemma join_char_cons_char c d piece pieces :
  join_char c (String d piece :: pieces) = String d (join_char c (piece :: pieces)).
Proof. destruct pieces; reflexivity. Qed.

Lemma join_split s c : join_char c (split s c) = s.
Proof.
  induction s as [|d s IH]; [reflexivity|]. simpl.
  destruct (Ascii.eqb_spec d c) as [->|Hne].
  - destruct (split s c) as [|piece pieces] eqn:Hs;
      [destruct (split_nonempty _ _ Hs)|].
    change (join_char c ("" :: piece :: pieces))
      with (String c (join_char c (piece :: pieces))).
    rewrite IH. reflexivity.
  - destruct (split s c) as [|piece pieces] eqn:Hs;
      [destruct (split_nonempty _ _ Hs)|].
    rewrite join_char_cons_char, IH. reflexivity.
Qed.

Lemma split_pieces s c : Forall (fun x => contains_char x c = false) (split s c).
Proof.
  induction s as [|d s IH]; simpl; [repeat constructor|].
  destruct (Ascii.eqb d c) eqn:Hd; [constructor; [reflexivity|exact IH]|].
  destruct (split s c) as [|piece pieces]; [repeat constructor; simpl|].
  - rewrite Hd. reflexivity.
  - inversion IH; subst. constructor; [|assumption]. simpl. rewrite Hd. assumption.
Qed.

Lemma split_piece x c : contains_char x c = false -> split x c = [x].
Proof.
  induction x as [|d x IH]; [reflexivity|]. simpl. intros Hx.
  apply orb_false_iff in Hx as [Hd Hx]. rewrite Hd, (IH Hx). reflexivity.
Qed.

Lemma split_app_sep x c rest :
  contains_char x c = false ->
  split (x ++ String c rest) c = x :: split rest c.
Proof.
  induction x as [|d x IH]; simpl; intros Hx.
  - rewrite Ascii.eqb_refl. reflexivity.
  - apply orb_false_iff in Hx as [Hd Hx]. rewrite Hd, (IH Hx). reflexivity.
Qed.

(** X9.  [split] never answers the empty list, its pieces do not hold the
    separator, and joined with the separator they give the string back. *)
Theorem split_join_round_trip s c :
  split s c <> [] /\
  Forall (fun x => contains_char x c = false) (split s c) /\
  join_char c (split s c) = s.
Proof.
  split; [apply split_nonempty|]. split; [apply split_pieces|apply join_split].
Qed.

(** X10.  A non-empty list of names without the separator is what [split]
    answers for the names joined with the separator. *)
Theorem join_split_round_trip l c :
  l <> [] ->
  Forall (fun x => contains_char x c = false) l ->
  split (join_char c l) c = l.
Proof.
  intros Hne Hall. induction Hall as [|x l Hx Hall IH]; [congruence|].
  destruct l as [|y l]; [apply split_piece, Hx|].
  change (join_char c (x :: y :: l)) with (x ++ String c (join_char c (y :: l))).
  rewrite split_app_sep by exact Hx. rewrite IH by discriminate. reflexivity.
Qed.

Lemma join_split_round_trip_witness :
  split (join_char "," ["hus"; "ua"; "va"]) "," = ["hus"; "ua"; "va"].
Proof.
  apply (join_split_round_trip ["hus"; "ua"; "va"] ","%char).
  - discriminate.
  - repeat constructor.
Defined.

(** X11.  The command line never calls the function with an empty list of
    variables: without [--variable_list] the list is the default one, and
    with it the list is made of the pieces of its argument between the
    commas, one piece at least (the empty name for an empty argument). *)
Theorem command_line_variables ns :
  variables_of (main_args ns) <> [] /\
  (ns_variable_list ns = None ->
   variables_of (main_args ns) = ["hus"; "ua"; "va"]) /\
  (forall arg, ns_variable_list ns = Some arg ->
     join_char "," (variables_of (main_args ns)) = arg /\
     Forall (fun x => contains_char x "," = false) (variables_of (main_args ns))).
Proof.
  unfold variables_of, main_args, parse_variable_list. simpl.
  destruct (ns_variable_list ns) as [arg|].
  - split; [apply split_nonempty|]. split; [discriminate|].
    intros arg' Harg. inversion Harg; subst arg'.
    split; [apply join_split|apply split_pieces].
  - split; [discriminate|]. split; [reflexivity|]. discriminate.
Qed.

End Splitting.

(** ** More about [str.format] *)

Section Placeholders.

Local Open Scope string_scope.
Local Arguments String.append !s1 s2 / : simpl nomatch.
Import Format Template.

Lemma emit_raise e k : emit (Some (Raise e)) k = Some (Raise e).
Proof. reflexivity. Qed.

(** A valid template before the rest of a format string is rendered, and
    the rest is scanned as literal text from there. *)
Lemma scan_template_of f ps rest :
  literals_brace_free ps = true ->
  scan f Text (template_of ps ++ rest)
  = emit (Some (Ok (fill f ps))) (scan f Text rest).
Proof.
  induction ps as [|[text|k] ps IH]; intros Hlit.
  - rewrite emit_nil. reflexivity.
  - simpl in Hlit. apply andb_true_iff in Hlit as [Ht Hlit].
    change (template_of (Lit text :: ps)) with (text ++ template_of ps).
    change (fill f (Lit text :: ps)) with (text ++ fill f ps).
    rewrite append_assoc, scan_literal by exact Ht.
    rewrite (IH Hlit), emit_append. reflexivity.
  - simpl in Hlit.
    change (template_of (Hole k :: ps))
      with ("{" ++ field_name k ++ "}" ++ template_of ps).
    change (fill f (Hole k :: ps)) with (field_value f k ++ fill f ps).
    replace (("{" ++ field_name k ++ "}" ++ template_of ps) ++ rest)
      with ("{" ++ field_name k ++ "}" ++ (template_of ps ++ rest))
      by (rewrite !append_assoc; reflexivity).
    rewrite scan_hole, (IH Hlit), emit_append. reflexivity.
Qed.

Lemma plain_char_inv c :
  plain_char c = true ->
  Ascii.eqb c "{" = false /\ Ascii.eqb c "}" = false /\
  Ascii.eqb c "[" = false /\ Ascii.eqb c "." = false /\
  Ascii.eqb c "!" = false /\ Ascii.eqb c ":" = false.
Proof.
  unfold plain_char. simpl. rewrite negb_true_iff, !orb_false_iff.
  rewrite !(Ascii.eqb_sym c). tauto.
Qed.

(** The characters of a plain name are gathered up to the closing brace. *)
Lemma scan_plain_name f name : forall acc rest,
  PyStr.all_chars plain_char name = true ->
  scan f (Name acc false) (name ++ String "}" rest)
  = emit (output_markup f (acc ++ name) None "") (scan f Text rest).
Proof.
  induction name as [|c name IH]; intros acc rest Hplain.
  - simpl. rewrite append_nil_r. reflexivity.
  - simpl in Hplain. apply andb_true_iff in Hplain as [Hc Hplain].
    apply plain_char_inv in Hc as (H1 & H2 & H3 & H4 & H5 & H6).
    simpl. rewrite H1, H2, H3, H5, H6. rewrite (IH _ _ Hplain).
    unfold snoc. rewrite append_assoc. reflexivity.
Qed.

Lemma scan_open_plain_name f name rest :
  name <> "" ->
  PyStr.all_chars plain_char name = true ->
  scan f Text (String "{" (name ++ String "}" rest))
  = emit (output_markup f name None "") (scan f Text rest).
Proof.
  intros Hne Hplain. destruct name as [|c name]; [congruence|].
  simpl in Hplain. apply andb_true_iff in Hplain as [Hc Hplain].
  apply plain_char_inv in Hc as (H1 & H2 & H3 & H4 & H5 & H6).
  simpl. rewrite H1, H2, H3, H5, H6.
  apply (scan_plain_name f name (String c "") rest Hplain).
Qed.

Lemma split_first_plain name :
  PyStr.all_chars plain_char name = true -> split_first name = (name, "").
Proof.
  induction name as [|c name IH]; [reflexivity|]. simpl. intros Hplain.
  apply andb_true_iff in Hplain as [Hc Hplain].
  apply plain_char_inv in Hc as (H1 & H2 & H3 & H4 & H5 & H6).
  rewrite H3, H4, (IH Hplain). reflexivity.
Qed.

(** The placeholder of a name that is not a keyword raises [KeyError]. *)
Lemma output_markup_unknown f name :
  plain_name name = true ->
  kwargs f name = None ->
  output_markup f name None "" = Some (Raise (KeyError name)).
Proof.
  unfold plain_name. intros Hplain Hkw.
  apply andb_true_iff in Hplain as [Hplain Hnum].
  apply andb_true_iff in Hplain as [Hne Hplain].
  unfold output_markup, get_field_object.
  rewrite (split_first_plain _ Hplain).
  destruct (get_integer name) as [[]|]; try discriminate.
  apply negb_true_iff in Hne. rewrite Hne, Hkw. reflexivity.
Qed.

Lemma format_unknown_placeholder f ps name rest :
  literals_brace_free ps = true ->
  plain_name name = true ->
  kwargs f name = None ->
  format (template_of ps ++ "{" ++ name ++ "}" ++ rest) f
  = Some (Raise (KeyError name)).
Proof.
  intros Hlit Hplain Hkw. unfold format.
  rewrite scan_template_of by exact Hlit.
  assert (Hne : name <> "" /\ PyStr.all_chars plain_char name = true).
  { unfold plain_name in Hplain.
    apply andb_true_iff in Hplain as [Hplain _].
    apply andb_true_iff in Hplain as [Hne Hplain].
    split; [|exact Hplain]. apply negb_true_iff, String.eqb_neq in Hne. exact Hne. }
  change ("{" ++ name ++ "}" ++ rest) with (String "{" (name ++ String "}" rest)).
  rewrite scan_open_plain_name by tauto.
  rewrite (output_markup_unknown _ _ Hplain Hkw). reflexivity.
Qed.

(** A name of digits only is a position, and a name that begins with more
    digits than an index holds is an error of its own: neither is a plain
    name. *)
Example format_position :
  format "{9223372036854775807}" Toy.default_fields = Some (Raise IndexError).
Proof. reflexivity. Qed.

Example format_too_many_digits :
  format "{9223372036854775808x}" Toy.default_fields = Some (Raise ValueError)
  /\ plain_name "9223372036854775808x" = false.
Proof. split; reflexivity. Qed.

Example format_digits_then_letter :
  format "{922x}" Toy.default_fields = Some (Raise (KeyError "922x"))
  /\ plain_name "922x" = true.
Proof. split; reflexivity. Qed.

(** X12.  A template that, after literal text and placeholders of the seven
    fields, has a placeholder of a plain name that is not one of the seven
    fields raises [KeyError] with that name, whatever follows the
    placeholder.  A plain name is not empty, has none of the characters
    [{ } [ . ! :], and is one for which [get_integer] answers that it is
    not a number: it does not consist of ASCII digits only, and neither an
    overflow of the index nor a character beyond ASCII is met before its
    first character that is not a digit. *)
Theorem unknown_placeholder_raises f ps name rest :
  literals_brace_free ps = true ->
  plain_name name = true ->
  kwargs f name = None ->
  format (template_of ps ++ "{" ++ name ++ "}" ++ rest) f
  = Some (Raise (KeyError name)).
Proof. apply format_unknown_placeholder. Qed.

Lemma unknown_placeholder_raises_witness :
  format "/tape/{institution}/{frequency}/{variable}.tar" Toy.default_fields
  = Some (Raise (KeyError "frequency")).
Proof.
  exact (unknown_placeholder_raises Toy.default_fields
           [Lit "/tape/"; Hole KInstitution; Lit "/"] "frequency"
           "/{variable}.tar" eq_refl eq_refl eq_refl).
Defined.

(** X13.  Text whose braces are doubled is rendered as the text itself,
    whatever the values of the fields. *)
Theorem escaped_text_is_literal f s : format (escape s) f = Some (Ok s).
Proof.
  unfold format. induction s as [|c s IH]; [reflexivity|].
  simpl. destruct (Ascii.eqb_spec c "{") as [->|H1].
  - simpl. rewrite IH. reflexivity.
  - destruct (Ascii.eqb_spec c "}") as [->|H2].
    + simpl. rewrite IH. reflexivity.
    + simpl. apply Ascii.eqb_neq in H1, H2. rewrite H1, H2, IH. reflexivity.
Qed.

End Placeholders.

Section PlaceholdersInRuns.

Context {FS : Type} {Sys : System FS}.

(** X14.  When the template has a placeholder of a plain name that is not
    one of the seven fields (after literal text and known placeholders), and
    [str.format] answers for this template and the fields of the first
    variable as the modelled fragment does, a run over a list that is not
    empty raises [KeyError] with that name at the first variable: no command
    is run, and the working directory and the file system are as before. *)
Theorem unknown_placeholder_stops_run a (st : state FS) ps name rest v vars :
  formats_as_modelled_at (path_template a) (fields_of a v) ->
  path_template a
  = (Template.template_of ps ++ "{" ++ name ++ "}" ++ rest)%string ->
  Template.literals_brace_free ps = true ->
  Format.plain_name name = true ->
  Format.kwargs (fields_of a v) name = None ->
  variables_of a = v :: vars ->
  exists st',
    extract_c20c_data a st = (Raise (KeyError name), st') /\
    new_events st st' = [] /\ cwd st' = cwd st /\ fs st' = fs st.
Proof.
  intros Hsys Htmpl Hlit Hplain Hkw Hvars.
  assert (Hfmt : sys_format (path_template a) (fields_of a v)
                 = Raise (KeyError name)).
  { apply Hsys. rewrite Htmpl.
    apply format_unknown_placeholder; assumption. }
  unfold extract_c20c_data, build_htar_paths. rewrite Hvars.
  unfold new_events.
  destruct (verify_first a); [unfold vprint; destruct (verbose a)|];
    eexists; (split; [cbn; unfold bind, lift; cbn; rewrite Hfmt; reflexivity|]);
    simpl; rewrite drop_all; auto.
Qed.

End PlaceholdersInRuns.

(** ** More about the destination and the checked path *)

Section Paths.

Local Open Scope string_scope.
Local Arguments String.append !s1 s2 / : simpl nomatch.
Import PyStr.




Lemma rstrip_where_app_drop q w : forall s,
  all_chars q w = true -> rstrip_where q (s ++ w) = rstrip_where q s.
Proof.
  induction w as [|x w IH]; intros s Hw.
  - rewrite append_nil_r. reflexivity.
  - simpl in Hw. apply andb_true_iff in Hw as [Hx Hw].
    replace (s ++ String x w) with ((s ++ String x "") ++ w)
      by (rewrite append_assoc; reflexivity).
    rewrite (IH _ Hw). apply rstrip_where_snoc_drop, Hx.
Qed.

(** The empty label occurs at the start of every path: the destination of
    an absolute path is then absolute. *)
Example destination_of_empty_label :
  out_dir_of None "" "/a/b/c.tar" = "/a/b"
  /\ PosixPath.isabs (out_dir_of None "" "/a/b/c.tar") = true.
Proof. split; reflexivity. Qed.



(** X16.  White space at the end of a path is dropped from the command the
    existence check runs, and kept in the extraction command: a path and
    the same path followed by white space are checked by the same command
    and extracted by different ones. *)
Theorem check_ignores_trailing_space p w threads :
  all_chars isspace w = true ->
  hsi_argv (p ++ w) = hsi_argv p /\
  (w <> "" -> htar_argv threads (p ++ w) <> htar_argv threads p).
Proof.
  intros Hw. split.
  - unfold hsi_argv, rstrip.
    replace ("ls " ++ p ++ w) with (("ls " ++ p) ++ w)
      by (rewrite append_assoc; reflexivity).
    rewrite rstrip_where_app_drop by exact Hw. reflexivity.
  - intros Hne Heq. unfold htar_argv in Heq. inversion Heq as [Hp].
    apply (f_equal String.length) in Hp. rewrite length_append in Hp.
    destruct w; [congruence|]. simpl in Hp. lia.
Qed.

Lemma check_ignores_trailing_space_witness :
  hsi_argv ("/tape/hus.tar" ++ "  ") = hsi_argv "/tape/hus.tar" /\
  ("  " <> "" ->
   htar_argv 15 ("/tape/hus.tar" ++ "  ") <> htar_argv 15 "/tape/hus.tar").
Proof. exact (check_ignores_trailing_space "/tape/hus.tar" "  " 15 eq_refl). Defined.

End Paths.

(** ** The further properties on concrete runs *)

Section MoreScenarios.

Import Toy.

Lemma toy_formats_as_modelled template f : formats_as_modelled_at template f.
Proof.
  intros r Hfmt. simpl. unfold toy_format. rewrite Hfmt. reflexivity.
Qed.

Ltac run_of a st :=
  assert (extract_c20c_data a st
          = (fst (extract_c20c_data a st), snd (extract_c20c_data a st)))
    by (vm_compute; reflexivity).

Lemma quiet_run_prints_nothing_witness :
  stdout (snd (extract_c20c_data quiet_args all_on_tape)) = stdout all_on_tape.
Proof.
  run_of quiet_args all_on_tape.
  eapply (quiet_run_prints_nothing quiet_args all_on_tape); [reflexivity|eassumption].
Defined.

Lemma no_verification_no_hsi_witness :
  invocations "hsi"
    (new_events all_on_tape (snd (extract_c20c_data unverified_args all_on_tape)))
  = [].
Proof.
  run_of unverified_args all_on_tape.
  eapply (no_verification_no_hsi unverified_args all_on_tape);
    [reflexivity|eassumption].
Defined.

Lemma clobbering_run_extracts_all_witness :
  new_events all_on_tape (snd (extract_c20c_data default_args all_on_tape))
  = checks default_args ["hus"; "ua"; "va"]
    ++ map (htar_ok default_args) ["hus"; "ua"; "va"].
Proof.
  apply (clobbering_run_extracts_all default_args all_on_tape).
  - reflexivity.
  - vm_compute. reflexivity.
Defined.

Lemma checks_precede_extractions_witness :
  exists hs ts,
    new_events broken_ua (snd (extract_c20c_data broken_ua_args broken_ua))
    = hs ++ ts /\
    Forall (fun ev => is_hsi ev = true) hs /\
    Forall (fun ev => is_htar ev = true) ts /\
    (length hs <= length (variables_of broken_ua_args))%nat /\
    (length ts <= length (variables_of broken_ua_args))%nat.
Proof.
  run_of broken_ua_args broken_ua.
  eapply (checks_precede_extractions broken_ua_args broken_ua). eassumption.
Defined.

Lemma htar_paths_content_witness :
  match fst (build_htar_paths default_args all_on_tape) with
  | Ok paths => paths
  | Raise _ => ∅
  end !! "ua" = Some ua_path
  <-> "ua" ∈ variables_of default_args /\ rendered default_args "ua" = Ok ua_path.
Proof.
  eapply (htar_paths_content default_args all_on_tape).
  vm_compute. reflexivity.
Defined.

Lemma empty_list_does_nothing_witness :
  exists st',
    extract_c20c_data empty_args all_on_tape = (Ok tt, st') /\
    new_events all_on_tape st' = [] /\
    cwd st' = cwd all_on_tape /\ fs st' = fs all_on_tape.
Proof. exact (empty_list_does_nothing empty_args all_on_tape eq_refl). Defined.

Lemma complete_run_output_witness :
  stdout (snd (extract_c20c_data default_args all_on_tape))
  = stdout all_on_tape
    ++ [msg_checking]
    ++ map (extracting_line default_args) ["hus"; "ua"; "va"].
Proof.
  apply (complete_run_output default_args all_on_tape).
  - reflexivity.
  - vm_compute. reflexivity.
Defined.

Lemma unknown_placeholder_stops_run_witness :
  exists st',
    extract_c20c_data unknown_field_args all_on_tape
    = (Raise (KeyError "frequency"), st') /\
    new_events all_on_tape st' = [] /\
    cwd st' = cwd all_on_tape /\ fs st' = fs all_on_tape.
Proof.
  apply (unknown_placeholder_stops_run unknown_field_args all_on_tape
           [Template.Lit "/tape/"; Template.Hole Template.KInstitution;
            Template.Lit "/"]
           "frequency" "/{variable}.tar" "hus" ["ua"]).
  - apply toy_formats_as_modelled.
  - reflexivity.
  - reflexivity.
  - reflexivity.
  - reflexivity.
  - reflexivity.
Defined.

End MoreScenarios.
